(** * OpenCortexBCI: the event-sequence classifier pipeline

    A shallow embedding of [opencortex/neuroengine/classifier.py]: the
    event filter, the learned stimulus sequence, the inference-mode
    sequence matcher, the target / non-target relabeling, and the
    train / predict protocols of [Classifier] with their exception flow.

    Numeric codes are [Z]; positions and lengths are [nat].  The
    scikit-learn, MNE, imbalanced-learn and brainflow capabilities are
    collaborators of the class and appear as fields of an environment
    record; every call to one of them is recorded in a trace, so that
    what was executed (and with which arguments) can be stated. *)

From Stdlib Require Import String DecimalString DecimalZ.
From Stdlib Require Import List ZArith Lia Bool Sorted Permutation.
Import ListNotations.

Set Implicit Arguments.

(** ** Exceptions and results *)

Module Exn.

(** The Python exceptions that the modelled code can raise itself, and
    [Upstream] for whatever a collaborator raises. *)
Inductive exn : Type :=
| ValueError (msg : string)
| IndexError (msg : string)
| AttributeError (msg : string)
| Upstream (origin : string).

Inductive result (A : Type) : Type :=
| Ok (a : A)
| Raise (e : exn).

Arguments Ok {A} a.
Arguments Raise {A} e.

Definition bind {A B} (r : result A) (k : A -> result B) : result B :=
  match r with
  | Ok a => k a
  | Raise e => Raise e
  end.

End Exn.
Export Exn.

Declare Scope result_scope.
Delimit Scope result_scope with result.
Notation "x <- r ;; k" := (Exn.bind r (fun x => k))
  (at level 61, r at next level, right associativity) : result_scope.
Notation "' p <- r ;; k" := (Exn.bind r (fun x => match x with p => k end))
  (at level 61, p pattern, r at next level, right associativity) : result_scope.

(** ** Events *)

Module Events.

(** One row of the MNE event array: [sample, previous value, event id].
    The classifier only ever reads and writes column 2, the code. *)
Record event : Type := mk_event {
  sample : Z;
  before : Z;
  code : Z
}.

Definition set_code (e : event) (c : Z) : event :=
  mk_event (sample e) (before e) c.

Definition codes (events : list event) : list Z := map code events.

(** [events = events[events[:, 2] < 90]] *)
Definition drop_markers (events : list event) : list event :=
  filter (fun e => (code e <? 90)%Z) events.

(** [np.unique]: the sorted unique elements of an array. *)
Fixpoint insert_unique (x : Z) (l : list Z) : list Z :=
  match l with
  | [] => [x]
  | y :: r =>
      if (x <? y)%Z then x :: l
      else if (x =? y)%Z then l
      else y :: insert_unique x r
  end.

Definition np_unique (l : list Z) : list Z :=
  fold_right insert_unique [] l.

(** The order the specification names for the stimulus sequence: each
    distinct code once, at the place of its first appearance. *)
Fixpoint first_seen_from (seen : list Z) (l : list Z) : list Z :=
  match l with
  | [] => []
  | x :: r =>
      if existsb (Z.eqb x) seen then first_seen_from seen r
      else x :: first_seen_from (x :: seen) r
  end.

Definition first_seen_order (l : list Z) : list Z := first_seen_from [] l.

(** The non-target label written by [preprocess]. *)
Definition non_target : Z := 3%Z.

(** [events[:, 2][events[:, 2] != self.training_class] = 3] *)
Definition relabel (training_class : Z) (events : list event) : list event :=
  map (fun e => if (code e =? training_class)%Z then e
                else set_code e non_target) events.

Definition count_code (c : Z) (events : list event) : nat :=
  length (filter (fun e => (code e =? c)%Z) events).

End Events.
Export Events.

(** ** The inference-mode sequence matcher *)

Module Matcher.

Open Scope result_scope.

(** The error of [preprocess] when no complete occurrence was found. *)
Definition InsufficientMatchError : exn :=
  ValueError "Not enough events found for prediction".

(** The [for i in range(0, len(events))] loop of [preprocess], entered
    with progress [j] and candidate [trial_events], over the events
    that are still to be visited.  It yields the values of [j] and
    [trial_events] when the loop is left, by [break] or by exhaustion;
    indexing [self.sequence] out of range raises [IndexError]. *)
Fixpoint match_loop (sequence : list Z) (j : nat) (trial_events : list event)
         (events : list event) : result (nat * list event) :=
  match events with
  | [] => Ok (j, trial_events)
  | e :: rest =>
      match nth_error sequence j with
      | None => Raise (IndexError "index out of range")
      | Some s =>
          if (code e =? s)%Z then
            let j' := S j in
            let trial_events' := trial_events ++ [e] in
            if Nat.eqb j' (length sequence) then Ok (j', trial_events')
            else match_loop sequence j' trial_events' rest
          else match_loop sequence 0 [] rest
      end
  end.

(** The [predict] branch of [preprocess], up to [np.array(trial_events)]. *)
Definition find_sequence (sequence : list Z) (events : list event)
  : result (list event) :=
  '(_, trial_events) <- match_loop sequence 0 [] events ;;
  if Nat.ltb (length trial_events) (length sequence)
  then Raise InsufficientMatchError
  else Ok trial_events.

End Matcher.
Export Matcher.

(** ** The first occurrence of a sequence *)

Module Occurrence.

(** What the specification names as the result of the matcher: the first
    run of as many events as the sequence has codes whose codes equal the
    sequence elementwise, wherever it stands in the stream.  It follows
    the words of the specification, to be compared with [find_sequence]. *)
Fixpoint first_run_with_codes (sequence : list Z) (events : list event)
  : option (list event) :=
  let window := firstn (length sequence) events in
  if list_eq_dec Z.eq_dec (codes window) sequence then Some window
  else match events with
       | [] => None
       | _ :: rest => first_run_with_codes sequence rest
       end.

End Occurrence.
Export Occurrence.

(** ** Small numpy and scikit-learn helpers *)

Module Arrays.

(** [a[start:end]] for non-negative bounds. *)
Definition slice {A} (start stop : nat) (a : list A) : list A :=
  firstn (stop - start) (skipn start a).

(** [a[-1]] *)
Definition last_row {A} (a : list A) : result A :=
  match rev a with
  | [] => Raise (IndexError "index -1 is out of bounds")
  | x :: _ => Ok x
  end.

(** [a.reshape(a.shape[0], -1)]: each leading entry is flattened in
    row-major order; numpy refuses the unknown dimension for an array
    of size 0. *)
Definition reshape_rows {A} (a : list (list (list A))) : result (list (list A)) :=
  match a with
  | [] => Raise (ValueError "cannot reshape array of size 0")
  | _ => Ok (map (@concat A) a)
  end.

(** [y[:, 1]] *)
Fixpoint column1 {A} (y : list (list A)) : result (list A) :=
  match y with
  | [] => Ok []
  | row :: rest =>
      match nth_error row 1 with
      | None => Raise (IndexError "index 1 is out of bounds for axis 1")
      | Some v =>
          match column1 rest with
          | Ok vs => Ok (v :: vs)
          | Raise e => Raise e
          end
      end
  end.

(** [np.argmax]: the first position of a maximal entry.  [best_i] and
    [best] are the running answer, [i] the position of the head of [l]. *)
Fixpoint argmax_from {A} (ltb : A -> A -> bool) (best_i : nat) (best : A)
         (i : nat) (l : list A) : nat :=
  match l with
  | [] => best_i
  | x :: r =>
      if ltb best x then argmax_from ltb i x (S i) r
      else argmax_from ltb best_i best (S i) r
  end.

Definition argmax {A} (ltb : A -> A -> bool) (l : list A) : result nat :=
  match l with
  | [] => Raise (ValueError "attempt to get argmax of an empty sequence")
  | x :: r => Ok (argmax_from ltb 0 x 1 r)
  end.

(** The comparisons for which "the maximum" is meaningful: strict total
    orders (the order of the floating point numbers without NaN). *)
Definition strict_total {A} (ltb : A -> A -> bool) : Prop :=
  (forall a, ltb a a = false) /\
  (forall a b c, ltb a b = true -> ltb b c = true -> ltb a c = true) /\
  (forall a b, ltb a b = false -> ltb b a = false -> a = b).

Fixpoint index_of (x : Z) (l : list Z) : nat :=
  match l with
  | [] => 0
  | y :: r => if (x =? y)%Z then 0 else S (index_of x r)
  end.

(** [LabelEncoder().fit_transform]: the position of each label among
    the sorted distinct labels. *)
Definition label_encode (labels : list Z) : list Z :=
  map (fun l => Z.of_nat (index_of l (np_unique labels))) labels.

(** [str] of an integer. *)
Definition str (z : Z) : string := NilZero.string_of_int (Z.to_int z).

End Arrays.
Export Arrays.

(** ** The columns of the class probabilities *)

Module Columns.

(** scikit-learn orders the columns of [predict_proba] by the classes the
    estimator was fitted on, in ascending order; [train] fits it on the
    encoded labels, so the column of a label is its rank among the sorted
    distinct labels, the number [label_encode] gives it. *)
Definition class_column (labels : list Z) (l : Z) : nat :=
  index_of l (np_unique labels).

(** [y[:, j]] *)
Fixpoint column {A} (j : nat) (y : list (list A)) : result (list A) :=
  match y with
  | [] => Ok []
  | row :: rest =>
      match nth_error row j with
      | None =>
          Raise (IndexError ("index " ++ str (Z.of_nat j)
                               ++ " is out of bounds for axis 1"))
      | Some v =>
          match column j rest with
          | Ok vs => Ok (v :: vs)
          | Raise e => Raise e
          end
      end
  end.

End Columns.
Export Columns.

(** ** The collaborators of the classifier *)

Module Collab.

Inductive run_mode : Type := train_mode | predict_mode.

Inductive sampling_strategy : Type := minority.

Inductive norm_method : Type := softmax | z_score.

Inductive scoring : Type := accuracy_scoring | weighted_f1_scoring.

(** What the class imports and calls.  [score] stands for the floating
    point numbers of the signal and of the probabilities; [raw],
    [scaler] and [model] are the states of the MNE recording, of the
    scikit-learn scaler and of the estimator.  Each capability either
    returns or raises. *)
Record Env : Type := {
  score : Type;
  raw : Type;
  scaler : Type;
  model : Type;
  score_ltb : score -> score -> bool;
  ENOPHONE_BOARD : Z;
  (* opencortex.utils.layouts: [eeg_start] and [eeg_end] of a board *)
  layouts : Z -> result (nat * nat);
  (* opencortex.utils.loader.convert_to_mne *)
  convert_to_mne :
    list (list score) -> list score -> Z -> option (list string) -> result raw;
  set_eeg_reference : raw -> list string -> result raw;
  find_events : raw -> result (list event);
  (* mne.Epochs followed by get_data(picks='eeg') and events[:, -1] *)
  Epochs : raw -> list event -> list (string * Z) -> score -> score
           -> result (list (list (list score)) * list Z);
  (* train_test_split(X, y, test_size=0.1, random_state=seed) *)
  train_test_split :
    list (list score) -> list Z -> Z
    -> result (list (list score) * list (list score) * list Z * list Z);
  (* RandomOverSampler(sampling_strategy, random_state).fit_resample *)
  fit_resample :
    sampling_strategy -> Z -> list (list score) -> list Z
    -> result (list (list score) * list Z);
  fit_transform : scaler -> list (list score) -> result (scaler * list (list score));
  transform : scaler -> list (list score) -> result (list (list score));
  (* cross_val_score over StratifiedKFold(n_splits, shuffle=True, seed) *)
  cross_val_score :
    model -> list (list score) -> list Z -> nat -> Z -> scoring -> result (list score);
  fit : model -> list (list score) -> list Z -> result model;
  model_predict : model -> list (list score) -> result (list Z);
  model_predict_proba : model -> list (list score) -> result (list (list score));
  (* np.mean(y_pred == y) and f1_score(y, y_pred, average='weighted') *)
  mean_equal : list Z -> list Z -> score;
  f1_score : list Z -> list Z -> result score;
  (* opencortex.validation.cross_val.normalize *)
  normalize : list score -> norm_method -> result (list score);
  (* np.round(x, decimals) on one entry *)
  np_round : score -> nat -> score
}.

End Collab.
Export Collab.

(** ** The classifier *)

Module Classifier.

Inductive log_level : Type := DEBUG | INFO | ERROR.

Section WithEnv.

Context (E : Env).

Definition features : Type := list (score E).
Definition epoch : Type := list (list (score E)).

(** The attributes of a [Classifier] instance that its methods use. *)
Record classifier : Type := mk_classifier {
  model_ : model E;
  mode : run_mode;
  sequence : list Z;
  board_id : Z;
  fs : Z;
  chs : option (list string);
  epoch_start : score E;
  epoch_end : score E;
  cv_splits : nat;
  training_class : Z;
  scaler_ : option (scaler E);
  prep_X : option (list features);
  prep_Y : option (list Z)
}.

Definition with_sequence (c : classifier) (sq : list Z) : classifier :=
  mk_classifier (model_ c) (mode c) sq (board_id c) (fs c) (chs c)
    (epoch_start c) (epoch_end c) (cv_splits c) (training_class c)
    (scaler_ c) (prep_X c) (prep_Y c).

Definition with_mode (c : classifier) (m : run_mode) : classifier :=
  mk_classifier (model_ c) m (sequence c) (board_id c) (fs c) (chs c)
    (epoch_start c) (epoch_end c) (cv_splits c) (training_class c)
    (scaler_ c) (prep_X c) (prep_Y c).

Definition with_model (c : classifier) (m : model E) : classifier :=
  mk_classifier m (mode c) (sequence c) (board_id c) (fs c) (chs c)
    (epoch_start c) (epoch_end c) (cv_splits c) (training_class c)
    (scaler_ c) (prep_X c) (prep_Y c).

Definition with_scaler (c : classifier) (sc : scaler E) : classifier :=
  mk_classifier (model_ c) (mode c) (sequence c) (board_id c) (fs c) (chs c)
    (epoch_start c) (epoch_end c) (cv_splits c) (training_class c)
    (Some sc) (prep_X c) (prep_Y c).

Definition with_prep (c : classifier) (X : list features) (y : list Z)
  : classifier :=
  mk_classifier (model_ c) (mode c) (sequence c) (board_id c) (fs c) (chs c)
    (epoch_start c) (epoch_end c) (cv_splits c) (training_class c)
    (scaler_ c) (Some X) (Some y).

(** The messages handed to [logging]. *)
Inductive log_msg : Type :=
| FoundEvents (cs : list Z)
| UsingSequence (sq : list Z)
| FoundMatching (events : list event)
| Labels (cs : list Z)
| EpochsExtracted (n : nat)
| EncodedLabels (y : list Z)
| TrainingShape (n_X n_y : nat)
| CVAccuracy (scores : list (score E))
| CVF1 (scores : list (score E))
| EvalAccuracy (a : score E)
| EvalF1 (f : score E)
| PreprocessError (e : exn)
| ModeSet (m : run_mode).

(** What a method does to the outside, in the order it does it: the
    log records and the calls to the collaborators with the arguments
    that matter.  A call is recorded when it is made, so a call that
    raises is in the trace too. *)
Inductive call : Type :=
| Logged (level : log_level) (msg : log_msg)
| Called_convert_to_mne
| Called_set_eeg_reference
| Called_find_events
| Called_Epochs (events : list event)
| Called_train_test_split (X : list features) (y : list Z) (seed : Z)
| Called_fit_resample (strategy : sampling_strategy) (seed : Z)
    (X : list features) (y : list Z)
| Called_fit_transform (X : list features)
| Called_transform (X : list features)
| Called_cross_val_score (X : list features) (y : list Z) (n_splits : nat)
    (sc : scoring)
| Called_fit (X : list features) (y : list Z)
| Called_predict (X : list features)
| Called_predict_proba (X : list features)
| Called_f1_score (y y_pred : list Z)
| Called_normalize (v : list (score E)) (method : norm_method).

Record world : Type := mk_world {
  self : classifier;
  trace : list call
}.

(** A method body: it runs in a world, returns or raises, and leaves
    the world as it was at that point. *)
Definition prog (A : Type) : Type := world -> result A * world.

Definition ret {A} (a : A) : prog A := fun w => (Ok a, w).

Definition pbind {A B} (m : prog A) (k : A -> prog B) : prog B :=
  fun w =>
    match m w with
    | (Ok a, w') => k a w'
    | (Raise e, w') => (Raise e, w')
    end.

Definition lift {A} (r : result A) : prog A := fun w => (r, w).

(** [try: body  except Exception as e: handler e] *)
Definition try_except {A} (body : prog A) (handler : exn -> prog A) : prog A :=
  fun w =>
    match body w with
    | (Ok a, w') => (Ok a, w')
    | (Raise e, w') => handler e w'
    end.

Definition emit (c : call) : prog unit :=
  fun w => (Ok tt, mk_world (self w) (trace w ++ [c])).

Definition logging (level : log_level) (msg : log_msg) : prog unit :=
  emit (Logged level msg).

(** A call to a collaborator. *)
Definition calling {A} (c : call) (r : result A) : prog A :=
  pbind (emit c) (fun _ => lift r).

Definition get_self : prog classifier := fun w => (Ok (self w), w).

Definition update_self (f : classifier -> classifier) : prog unit :=
  fun w => (Ok tt, mk_world (f (self w)) (trace w)).

End WithEnv.

Arguments ret {E A} a.
Arguments lift {E A} r.
Arguments get_self {E}.
Arguments FoundEvents {E} cs.
Arguments UsingSequence {E} sq.
Arguments FoundMatching {E} events.
Arguments Labels {E} cs.
Arguments EpochsExtracted {E} n.
Arguments EncodedLabels {E} y.
Arguments TrainingShape {E} n_X n_y.
Arguments CVAccuracy {E} scores.
Arguments CVF1 {E} scores.
Arguments EvalAccuracy {E} a.
Arguments EvalF1 {E} f.
Arguments PreprocessError {E} e.
Arguments ModeSet {E} m.
Arguments Logged {E} level msg.
Arguments Called_convert_to_mne {E}.
Arguments Called_set_eeg_reference {E}.
Arguments Called_find_events {E}.
Arguments Called_Epochs {E} events.
Arguments Called_train_test_split {E} X y seed.
Arguments Called_fit_resample {E} strategy seed X y.
Arguments Called_fit_transform {E} X.
Arguments Called_transform {E} X.
Arguments Called_cross_val_score {E} X y n_splits sc.
Arguments Called_fit {E} X y.
Arguments Called_predict {E} X.
Arguments Called_predict_proba {E} X.
Arguments Called_f1_score {E} y y_pred.
Arguments Called_normalize {E} v method.

End Classifier.
Export Classifier.

Declare Scope prog_scope.
Delimit Scope prog_scope with prog.
Notation "x <- m ;; k" := (Classifier.pbind m (fun x => k))
  (at level 61, m at next level, right associativity) : prog_scope.
Notation "' p <- m ;; k" :=
  (Classifier.pbind m (fun x => match x with p => k end))
  (at level 61, p pattern, m at next level, right associativity) : prog_scope.
Notation "m ;; k" := (Classifier.pbind m (fun _ => k))
  (at level 61, right associativity) : prog_scope.

(** ** The methods of [Classifier] *)

Unset Implicit Arguments.

Module Methods.

(** The event array as [preprocess] holds it before relabeling: the
    filtered rows of [find_events] keep their two dimensions, while
    [np.array] of an empty Python list is one-dimensional and has no
    column 2. *)
Inductive ndarray : Type :=
| Rows (rows : list event)
| Empty1d.

Definition np_array (trial_events : list event) : ndarray :=
  match trial_events with
  | [] => Empty1d
  | _ => Rows trial_events
  end.

Definition relabel_column (training_class : Z) (a : ndarray)
  : result (list event) :=
  match a with
  | Rows rows => Ok (relabel training_class rows)
  | Empty1d => Raise (IndexError "too many indices for array")
  end.

(** The module-level [random_state]. *)
Definition random_state : Z := 32%Z.

(** The [event_id] handed to [Epochs]. *)
Definition event_id : list (string * Z) := [("T"%string, 1%Z); ("NT"%string, 3%Z)].

Section WithEnv.

Context (E : Env).

Open Scope prog_scope.

#[local] Abbreviation prog := (Classifier.prog E).
#[local] Abbreviation features := (Classifier.features E).
#[local] Abbreviation epoch := (Classifier.epoch E).

(** [Classifier.preprocess] *)
Definition preprocess (data : list (list (score E)))
  : prog (list epoch * list Z) :=
  c <- get_self ;;
  ' (start_eeg, end_eeg) <- lift (layouts E (board_id c)) ;;
  let eeg := slice start_eeg end_eeg data in
  trigger <- lift (last_row data) ;;
  raw0 <- calling Called_convert_to_mne
            (convert_to_mne E eeg trigger (fs c) (chs c)) ;;
  raw1 <- (if (ENOPHONE_BOARD E =? board_id c)%Z
           then calling Called_set_eeg_reference
                  (set_eeg_reference E raw0 ["C3"%string; "C4"%string])
           else ret raw0) ;;
  found <- calling Called_find_events (find_events E raw1) ;;
  let events := drop_markers found in
  logging DEBUG (FoundEvents (codes events)) ;;
  events' <- match mode c with
             | train_mode =>
                 update_self (fun s => with_sequence s (np_unique (codes events))) ;;
                 ret (Rows events)
             | predict_mode =>
                 logging DEBUG (UsingSequence (sequence c)) ;;
                 trial_events <- lift (find_sequence (sequence c) events) ;;
                 logging INFO (FoundMatching trial_events) ;;
                 ret (np_array trial_events)
             end ;;
  relabeled <- lift (relabel_column (training_class c) events') ;;
  logging DEBUG (Labels (codes relabeled)) ;;
  ' (preprocessed, labels) <-
      calling (Called_Epochs relabeled)
        (Epochs E raw1 relabeled event_id (epoch_start c) (epoch_end c)) ;;
  logging INFO (EpochsExtracted (length preprocessed)) ;;
  ret (preprocessed, labels).

(** [Classifier.cross_validate]; the folds are seeded with the module's
    [random_state], whatever seed [train] was called with. *)
Definition cross_validate (X : list features) (y : list Z) (n_splits : nat)
  : prog (list (score E) * list (score E)) :=
  c <- get_self ;;
  cv_accuracy <- calling (Called_cross_val_score X y n_splits accuracy_scoring)
                   (cross_val_score E (model_ c) X y n_splits random_state
                      accuracy_scoring) ;;
  cv_f1 <- calling (Called_cross_val_score X y n_splits weighted_f1_scoring)
             (cross_val_score E (model_ c) X y n_splits random_state
                weighted_f1_scoring) ;;
  logging INFO (CVAccuracy cv_accuracy) ;;
  logging INFO (CVF1 cv_f1) ;;
  ret (cv_accuracy, cv_f1).

(** [self.scaler.transform(X)]; [self.scaler] is [None] before a
    training pass. *)
Definition scaler_transform (X : list features) : prog (list features) :=
  c <- get_self ;;
  match scaler_ c with
  | None => lift (Raise (AttributeError "'NoneType' object has no attribute 'transform'"))
  | Some sc => calling (Called_transform X) (transform E sc X)
  end.

(** [Classifier.evaluate] *)
Definition evaluate (X : list features) (y : list Z)
  : prog (score E * score E) :=
  X' <- scaler_transform X ;;
  c <- get_self ;;
  y_pred <- calling (Called_predict X') (model_predict E (model_ c) X') ;;
  let accuracy := mean_equal E y_pred y in
  f1 <- calling (Called_f1_score y y_pred) (f1_score E y y_pred) ;;
  logging INFO (EvalAccuracy accuracy) ;;
  logging INFO (EvalF1 f1) ;;
  ret (accuracy, f1).

(** [Classifier.train] *)
Definition train (data : list (list (score E))) (sc : scaler E)
           (oversample : bool) (random_state : Z) : prog unit :=
  ' (prep_data, labels) <- preprocess data ;;
  X <- lift (reshape_rows prep_data) ;;
  let y := label_encode labels in
  logging DEBUG (EncodedLabels y) ;;
  update_self (fun s => with_prep s X y) ;;
  ' (X_train, X_test, y_train, y_test) <-
      calling (Called_train_test_split X y random_state)
        (train_test_split E X y random_state) ;;
  ' (X_train, y_train) <-
      (if oversample
       then calling (Called_fit_resample minority random_state X_train y_train)
              (fit_resample E minority random_state X_train y_train)
       else ret (X_train, y_train)) ;;
  logging INFO (TrainingShape (length X_train) (length y_train)) ;;
  ' (sc', X_train) <- calling (Called_fit_transform X_train)
                        (fit_transform E sc X_train) ;;
  update_self (fun s => with_scaler s sc') ;;
  c <- get_self ;;
  _ <- cross_validate X y (cv_splits c) ;;
  fitted <- calling (Called_fit X_train y_train) (fit E (model_ c) X_train y_train) ;;
  update_self (fun s => with_model s fitted) ;;
  _ <- evaluate X_test y_test ;;
  ret tt.

(** [Classifier.predict_class] and [Classifier.predict_probabilities] *)
Definition predict_class (X : list features) : prog (list Z) :=
  c <- get_self ;;
  calling (Called_predict X) (model_predict E (model_ c) X).

Definition predict_probabilities (X : list features)
  : prog (list (list (score E))) :=
  c <- get_self ;;
  calling (Called_predict_proba X) (model_predict_proba E (model_ c) X).

(** The values of the dictionary built by [group_predictions]. *)
Inductive value : Type :=
| VInt (n : Z)
| VScore (x : score E).

(** A Python [dict] with string keys, in insertion order. *)
Definition dict : Type := list (string * value).

Fixpoint dict_set (d : dict) (k : string) (v : value) : dict :=
  match d with
  | [] => [(k, v)]
  | (k', v') :: r =>
      if String.eqb k k' then (k, v) :: r else (k', v') :: dict_set r k v
  end.

Fixpoint dict_get (d : dict) (k : string) : option value :=
  match d with
  | [] => None
  | (k', v') :: r => if String.eqb k k' then Some v' else dict_get r k
  end.

(** [for idx, prediction in enumerate(seq): output[str(seq[idx])] = y[idx]],
    entered at position [idx] with [todo] the entries of [seq] still
    to be enumerated. *)
Fixpoint fill_output (seq : list Z) (y : list value) (idx : nat)
         (todo : list Z) (output : dict) : result dict :=
  match todo with
  | [] => Ok output
  | _ :: todo' =>
      match nth_error seq idx, nth_error y idx with
      | Some c, Some v => fill_output seq y (S idx) todo' (dict_set output (str c) v)
      | _, _ => Raise (IndexError "index out of bounds")
      end
  end.

(** [Classifier.group_predictions] *)
Definition group_predictions (X : list features) (proba : bool) : prog dict :=
  if proba then
    y <- predict_probabilities X ;;
    c <- get_self ;;
    let seq := sequence c in
    y_1 <- lift (column1 y) ;;
    y_1 <- calling (Called_normalize y_1 softmax) (normalize E y_1 softmax) ;;
    let y_1 := map (fun x => np_round E x 4) y_1 in
    best <- lift (argmax (score_ltb E) y_1) ;;
    let output := [("class"%string, VInt (Z.of_nat best + 1))] in
    lift (fill_output seq (map VScore y_1) 0 seq output)
  else
    y <- predict_class X ;;
    c <- get_self ;;
    let seq := sequence c in
    best <- lift (argmax Z.ltb y) ;;
    let output := [("class"%string, VInt (Z.of_nat best + 1))] in
    lift (fill_output seq (map VInt y) 0 seq output).

(** What [predict] hands back: [None], the class labels, the class
    probabilities, or the grouped dictionary. *)
Inductive prediction : Type :=
| NoResult
| Classes (y : list Z)
| Probabilities (p : list (list (score E)))
| Grouped (d : dict).

(** [Classifier.predict] *)
Definition predict (data : list (list (score E))) (proba group : bool)
  : prog prediction :=
  prepared <- try_except
                (' (X, _) <- preprocess data ;; ret (Some X))
                (fun e => logging ERROR (PreprocessError e) ;; ret None) ;;
  match prepared with
  | None => ret NoResult
  | Some X =>
      X <- lift (reshape_rows X) ;;
      X <- scaler_transform X ;;
      if negb group then
        if negb proba
        then (y <- predict_class X ;; ret (Classes y))
        else (p <- predict_probabilities X ;; ret (Probabilities p))
      else
        (d <- group_predictions X proba ;; ret (Grouped d))
  end.

(** [Classifier.set_inference_mode] *)
Definition set_inference_mode (inference : bool) : prog unit :=
  update_self (fun s => with_mode s (if inference then predict_mode else train_mode)) ;;
  c <- get_self ;;
  logging DEBUG (ModeSet (mode c)).

End WithEnv.

Arguments VInt {E} n.
Arguments VScore {E} x.
Arguments NoResult {E}.
Arguments Classes {E} y.
Arguments Probabilities {E} p.
Arguments Grouped {E} d.

End Methods.
Export Methods.

(** ** What the opening lines of [preprocess] obtain *)

Module Acquisition.

Section WithEnv.

Context (E : Env).

Open Scope result_scope.

(** The recording and the events that lines 142 to 150 of [preprocess]
    get from the collaborators, as a value: the same calls in the same
    order, without the trace.  It serves to name, in the statements, the
    events a preprocessing pass works on. *)
Definition acquire (c : classifier E) (data : list (list (score E)))
  : result (raw E * list event) :=
  ' (start_eeg, end_eeg) <- layouts E (board_id c) ;;
  trigger <- last_row data ;;
  raw0 <- convert_to_mne E (slice start_eeg end_eeg data) trigger (fs c) (chs c) ;;
  raw1 <- (if (ENOPHONE_BOARD E =? board_id c)%Z
           then set_eeg_reference E raw0 ["C3"%string; "C4"%string]
           else Ok raw0) ;;
  found <- find_events E raw1 ;;
  Ok (raw1, found).

(** The calls recorded by those lines when none of them raises. *)
Definition acquire_calls (c : classifier E) : list (call E) :=
  Called_convert_to_mne
    :: (if (ENOPHONE_BOARD E =? board_id c)%Z then [Called_set_eeg_reference] else [])
    ++ [Called_find_events].

End WithEnv.

End Acquisition.
Export Acquisition.

(** ** A small concrete environment *)

Module Demo.

(** Stand-ins for the collaborators over integer scores, to run the
    methods on concrete recordings.  The recording object is its trigger
    channel; every non-zero trigger sample is an event; an epoch is the
    sample position of its event. *)

Fixpoint events_of_trigger (i : Z) (trigger : list Z) : list event :=
  match trigger with
  | [] => []
  | v :: r =>
      if (v =? 0)%Z then events_of_trigger (i + 1) r
      else mk_event i 0 v :: events_of_trigger (i + 1) r
  end.

(** As [mne.Epochs]: only the events whose code is in [event_id] are kept. *)
Definition demo_Epochs (r : list Z) (events : list event) (ids : list (string * Z))
           (tmin tmax : Z) : result (list (list (list Z)) * list Z) :=
  let kept := filter (fun e => existsb (fun id => (code e =? snd id)%Z) ids) events in
  Ok (map (fun e => [[sample e]]) kept, codes kept).

(** As [train_test_split] with [test_size=0.1], without the shuffle: the
    first tenth (rounded up) is held out; an empty training part is
    refused. *)
Definition demo_split (X : list (list Z)) (y : list Z) (seed : Z)
  : result (list (list Z) * list (list Z) * list Z * list Z) :=
  let n_test := (length X + 9) / 10 in
  if Nat.eqb (length X - n_test) 0
  then Raise (ValueError "the resulting train set will be empty")
  else Ok (skipn n_test X, firstn n_test X, skipn n_test y, firstn n_test y).

Definition count_label (l : Z) (y : list Z) : nat :=
  length (filter (Z.eqb l) y).

Fixpoint first_with_label (l : Z) (X : list (list Z)) (y : list Z)
  : option (list Z) :=
  match X, y with
  | x :: X', l' :: y' => if (l =? l')%Z then Some x else first_with_label l X' y'
  | _, _ => None
  end.

(** As [RandomOverSampler(sampling_strategy='minority')] on labels 0 and
    1, with the first sample of the smaller class as every draw. *)
Definition demo_fit_resample (st : sampling_strategy) (seed : Z)
           (X : list (list Z)) (y : list Z) : result (list (list Z) * list Z) :=
  let n0 := count_label 0 y in
  let n1 := count_label 1 y in
  let small := if Nat.leb n0 n1 then 0%Z else 1%Z in
  match first_with_label small X y with
  | None => Raise (ValueError "The target 'y' needs to have more than 1 class")
  | Some x =>
      let extra := Nat.max n0 n1 - Nat.min n0 n1 in
      Ok (X ++ repeat x extra, y ++ repeat small extra)
  end.

(** As [cross_val_score] over a stratified k-fold: more splits than
    samples are refused. *)
Definition demo_cross_val_score (m : list (list Z * Z)) (X : list (list Z))
           (y : list Z) (n_splits : nat) (seed : Z) (sc : scoring)
  : result (list Z) :=
  if Nat.ltb (length X) n_splits
  then Raise (ValueError "Cannot have number of splits greater than the number of samples")
  else Ok (repeat 1%Z n_splits).

Fixpoint recall (m : list (list Z * Z)) (x : list Z) : Z :=
  match m with
  | [] => 0%Z
  | (x', l) :: r => if list_eq_dec Z.eq_dec x x' then l else recall r x
  end.

Definition env : Env := {|
  score := Z;
  raw := list Z;
  scaler := unit;
  model := list (list Z * Z);
  score_ltb := Z.ltb;
  ENOPHONE_BOARD := 37%Z;
  layouts := fun _ => Ok (0, 1);
  convert_to_mne := fun _ trigger _ _ => Ok trigger;
  set_eeg_reference := fun r _ => Ok r;
  find_events := fun r => Ok (events_of_trigger 0 r);
  Epochs := demo_Epochs;
  train_test_split := demo_split;
  fit_resample := demo_fit_resample;
  fit_transform := fun sc X => Ok (sc, X);
  transform := fun _ X => Ok X;
  cross_val_score := demo_cross_val_score;
  fit := fun _ X y => Ok (combine X y);
  model_predict := fun m X => Ok (map (recall m) X);
  model_predict_proba := fun m X => Ok (map (fun x => [(10 - hd 0 x)%Z; hd 0%Z x]) X);
  mean_equal := fun a b =>
    Z.of_nat (length (filter (fun p => (fst p =? snd p)%Z) (combine a b)));
  f1_score := fun _ _ => Ok 1%Z;
  normalize := fun v _ => Ok v;
  np_round := fun x _ => x
|}.

(** A classifier as [__init__] leaves it, on a board that is not the
    Enophone. *)
Definition fresh : classifier env :=
  @mk_classifier env [] train_mode [] 0%Z 250%Z None (-1)%Z 7%Z 10 1%Z None None None.

Definition start (c : classifier env) : world env := mk_world c [].

(** The same with two cross-validation splits, for short recordings. *)
Definition two_fold : classifier env :=
  @mk_classifier env [] train_mode [] 0%Z 250%Z None (-1)%Z 7%Z 2 1%Z None None None.

(** A recording of one EEG row and the trigger row. *)
Definition recording (trigger : list Z) : list (list Z) :=
  [map (fun _ => 0%Z) trigger; trigger].

(** A recording in which each of the given codes is shown for one
    sample after 2000 samples of silence, with 2000 silent samples at the
    end.  Every pulse rises from 0 and falls back to 0, so each is one
    event with 0 before it, and at 250 Hz the events stand 8 s from each
    other and from both ends: every epoch window lies inside the
    recording. *)
Definition spaced_recording (cs : list Z) : list (list Z) :=
  recording (flat_map (fun c => repeat 0%Z 2000 ++ [c]) cs ++ repeat 0%Z 2000).

End Demo.

(** ** Concrete streams for the examples *)

Module Samples.

(** The events with the given codes at consecutive sample positions. *)
Fixpoint stream_from (s : Z) (cs : list Z) : list event :=
  match cs with
  | [] => []
  | c :: r => mk_event s 0 c :: stream_from (s + 1) r
  end.

Definition stream (cs : list Z) : list event := stream_from 0 cs.

End Samples.
Export Samples.

(* ==== theorems ==== *)

(** ** Constructing a classifier *)

Module Construct.

(** What [__init__] raises: its own [ValueError] for a missing model
    name, the [KeyError] of the [models] dictionary, and whatever
    [BoardShim.get_sampling_rate] raises. *)
Inductive init_error : Type :=
| ModelIsNone (msg : string)
| KeyError (key : string)
| BoardError (e : exn).

Section WithEnv.

Context (E : Env).

(** The estimators held by the module-level dictionary [models]. *)
Record presets : Type := {
  SVM : model E;
  LDA : model E;
  RF : model E;
  MAJ : model E
}.

Definition models (p : presets) : list (string * model E) :=
  [("SVM"%string, SVM p); ("LDA"%string, LDA p);
   ("RF"%string, RF p); ("MAJ"%string, MAJ p)].

(** [d[key]] *)
Fixpoint getitem (d : list (string * model E)) (key : string) : option (model E) :=
  match d with
  | [] => None
  | (k, m) :: r => if String.eqb key k then Some m else getitem r key
  end.

(** [Classifier.__init__]; [epoch_start] and [epoch_end] stand for the
    floating point constants -0.1 and 0.7. *)
Definition init (p : presets) (get_sampling_rate : Z -> result Z)
           (epoch_start epoch_end : score E)
           (model : option string) (board_id : Z) (chs : option (list string))
  : init_error + classifier E :=
  match model with
  | None => inl (ModelIsNone "Model cannot be None")
  | Some name =>
      match getitem (models p) name with
      | None => inl (KeyError name)
      | Some m =>
          match get_sampling_rate board_id with
          | Raise e => inl (BoardError e)
          | Ok rate =>
              inr (mk_classifier m train_mode [] board_id rate chs
                     epoch_start epoch_end 10 1%Z None None None)
          end
      end
  end.

End WithEnv.

End Construct.

(** ** The OSC stream thread *)

Module Osc.

(** The python-osc capabilities behind [OscStreamThread]: the client
    constructor, its [send_message], and [server_close]; [number] stands
    for the numbers found in the data dictionary and [pyfloat] for what
    [float] makes of them. *)
Record OscEnv : Type := {
  number : Type;
  pyfloat : Type;
  server : Type;
  client : Type;
  to_float : number -> pyfloat;
  SimpleUDPClient : string -> Z -> result client;
  client_send_message : client -> string -> list pyfloat -> result unit;
  server_close : server -> result unit
}.

(** A value of the data dictionary: a one-dimensional numpy array of
    numbers, or one number. *)
Inductive values (O : OscEnv) : Type :=
| NdArray (xs : list (number O))
| Scalar (x : number O).

Arguments NdArray {O} xs.
Arguments Scalar {O} x.

(** The attributes of an [OscStreamThread]. *)
Record thread (O : OscEnv) : Type := mk_thread {
  listen_host : string;
  listen_port : Z;
  send_host : string;
  send_port : Z;
  running : bool;
  server_ : option (server O);
  client_ : option (client O)
}.

Arguments mk_thread {O}.
Arguments listen_host {O}.
Arguments listen_port {O}.
Arguments send_host {O}.
Arguments send_port {O}.
Arguments running {O}.
Arguments server_ {O}.
Arguments client_ {O}.

(** What the thread does to the outside, in order. *)
Inductive osc_call (O : OscEnv) : Type :=
| Made_client (host : string) (port : Z)
| Logged_sending (band_name address : string) (float_values : list (pyfloat O))
| Sent (c : client O) (path : string) (float_values : list (pyfloat O))
| Closed (s : server O).

Arguments Made_client {O} host port.
Arguments Logged_sending {O} band_name address float_values.
Arguments Sent {O} c path float_values.
Arguments Closed {O} s.

Section WithEnv.

Context (O : OscEnv).

Definition osc_world : Type := thread O * list (osc_call O).

(** [OscStreamThread.__init__] with its default arguments overridable. *)
Definition init (listen_host : string) (listen_port : Z)
           (send_host : string) (send_port : Z) : thread O :=
  mk_thread listen_host listen_port send_host send_port false None None.

Definition with_client (t : thread O) (c : option (client O)) : thread O :=
  mk_thread (listen_host t) (listen_port t) (send_host t) (send_port t)
    (running t) (server_ t) c.

(** [[float(val) for val in values] if isinstance(values, numpy.ndarray)
    else [float(values)]] *)
Definition float_values (v : values O) : list (pyfloat O) :=
  match v with
  | NdArray xs => map (to_float O) xs
  | Scalar x => [to_float O x]
  end.

(** The [for band_name, values in data.items()] loop of [send_message],
    with [c] the client just stored in [self.client]. *)
Fixpoint send_items (c : client O) (address : string)
         (items : list (string * values O)) (tr : list (osc_call O))
  : result unit * list (osc_call O) :=
  match items with
  | [] => (Ok tt, tr)
  | (band_name, v) :: rest =>
      let fv := float_values v in
      let path := ("/" ++ band_name)%string in
      let tr' := tr ++ [Logged_sending band_name address fv; Sent c path fv] in
      match client_send_message O c path fv with
      | Ok _ => send_items c address rest tr'
      | Raise e => (Raise e, tr')
      end
  end.

(** [OscStreamThread.send_message]; [data] is the dictionary as its
    [items()], in insertion order. *)
Definition send_message (address : string) (data : list (string * values O))
           (port : Z) (w : osc_world) : result unit * osc_world :=
  let (t, tr) := w in
  match client_ t with
  | None => (Ok tt, w)
  | Some _ =>
      let tr := tr ++ [Made_client address port] in
      match SimpleUDPClient O address port with
      | Raise e => (Raise e, (t, tr))
      | Ok c =>
          let (r, tr') := send_items c address data tr in
          (r, (with_client t (Some c), tr'))
      end
  end.

(** [OscStreamThread.stop] *)
Definition stop (w : osc_world) : result unit * osc_world :=
  let (t, tr) := w in
  let t1 := mk_thread (listen_host t) (listen_port t) (send_host t) (send_port t)
              false (server_ t) (client_ t) in
  match server_ t with
  | Some s =>
      match server_close O s with
      | Raise e => (Raise e, (t1, tr ++ [Closed s]))
      | Ok _ =>
          (Ok tt,
           (mk_thread (listen_host t) (listen_port t) (send_host t) (send_port t)
              false None None,
            tr ++ [Closed s]))
      end
  | None =>
      (Ok tt,
       (mk_thread (listen_host t) (listen_port t) (send_host t) (send_port t)
          false None None,
        tr))
  end.

End WithEnv.

(** A concrete environment: clients are their target, sending to port 0
    fails. *)
Definition demo : OscEnv := {|
  number := Z;
  pyfloat := Z;
  server := unit;
  client := string * Z;
  to_float := fun x => x;
  SimpleUDPClient := fun host port => Ok (host, port);
  client_send_message := fun c _ _ =>
    if (snd c =? 0)%Z then Raise (Upstream "socket") else Ok tt;
  server_close := fun _ => Ok tt
|}.

End Osc.

(** ** An environment whose model knows one class *)

Module DemoSingle.

(** [Demo.env] with a model fitted on a single class: it reports one
    probability per epoch. *)
Definition env : Env := {|
  score := Z;
  raw := list Z;
  scaler := unit;
  model := list (list Z * Z);
  score_ltb := Z.ltb;
  ENOPHONE_BOARD := ENOPHONE_BOARD Demo.env;
  layouts := layouts Demo.env;
  convert_to_mne := convert_to_mne Demo.env;
  set_eeg_reference := set_eeg_reference Demo.env;
  find_events := find_events Demo.env;
  Epochs := Epochs Demo.env;
  train_test_split := train_test_split Demo.env;
  fit_resample := fit_resample Demo.env;
  fit_transform := fit_transform Demo.env;
  transform := transform Demo.env;
  cross_val_score := cross_val_score Demo.env;
  fit := fit Demo.env;
  model_predict := model_predict Demo.env;
  model_predict_proba := fun _ X => Ok (map (fun _ => [1%Z]) X);
  mean_equal := mean_equal Demo.env;
  f1_score := f1_score Demo.env;
  normalize := normalize Demo.env;
  np_round := np_round Demo.env
|}.

End DemoSingle.

(** ** Reading a trace *)

Module Observe.

Section WithEnv.

Context (E : Env).

(** The entries a pass can record before it reaches [Epochs]: log
    records and the three opening calls; no call to [Epochs], to the
    scaler or to the model. *)
Definition before_epochs (c : call E) : bool :=
  match c with
  | Logged _ _ => true
  | Called_convert_to_mne => true
  | Called_set_eeg_reference => true
  | Called_find_events => true
  | _ => false
  end.

End WithEnv.

End Observe.
Export Observe.

(** ** Proof tools *)

(** Unfolds the plumbing of a method body, not the collaborators. *)
Ltac unfold_prog :=
  unfold Classifier.pbind, Classifier.try_except, Classifier.calling,
    Classifier.logging, Classifier.emit, Classifier.lift, Classifier.ret,
    Classifier.get_self, Classifier.update_self in *.

(** ** Facts about the matcher loop *)

Section MatcherFacts.

Variable sequence : list Z.

(** A matching event that does not complete the sequence is appended and
    the loop goes on with the next position. *)
Lemma match_loop_advance (j : nat) (t : list event) (e : event) (rest : list event) :
  nth_error sequence j = Some (code e) ->
  S j <> length sequence ->
  match_loop sequence j t (e :: rest) = match_loop sequence (S j) (t ++ [e]) rest.
Proof.
  intros Hn Hk. cbn [match_loop]. rewrite Hn, Z.eqb_refl.
  destruct (Nat.eqb_spec (S j) (length sequence)); [contradiction | reflexivity].
Qed.

(** The matching event that completes the sequence leaves the loop. *)
Lemma match_loop_break (j : nat) (t : list event) (e : event) (rest : list event) :
  nth_error sequence j = Some (code e) ->
  S j = length sequence ->
  match_loop sequence j t (e :: rest) = Ok (S j, t ++ [e]).
Proof.
  intros Hn Hk. cbn [match_loop]. rewrite Hn, Z.eqb_refl.
  destruct (Nat.eqb_spec (S j) (length sequence)); [reflexivity | contradiction].
Qed.

(** A mismatching event throws the candidate away. *)
Lemma match_loop_reset (j : nat) (t : list event) (e : event) (rest : list event) (s : Z) :
  nth_error sequence j = Some s ->
  code e <> s ->
  match_loop sequence j t (e :: rest) = match_loop sequence 0 [] rest.
Proof.
  intros Hn Hne. cbn [match_loop]. rewrite Hn.
  destruct (Z.eqb_spec (code e) s); [contradiction | reflexivity].
Qed.

(** The loop over a concatenation: when the first part is left by
    exhaustion, the second part is entered in the state reached. *)
Lemma match_loop_app (pre rest : list event) :
  forall j t j' t',
    match_loop sequence j t pre = Ok (j', t') ->
    j' <> length sequence ->
    match_loop sequence j t (pre ++ rest) = match_loop sequence j' t' rest.
Proof.
  induction pre as [| e pre IH]; intros j t j' t' Hrun Hk; cbn [match_loop app] in *.
  - inversion Hrun; subst. reflexivity.
  - destruct (nth_error sequence j) as [s |]; [| discriminate].
    destruct (code e =? s)%Z.
    + destruct (Nat.eqb_spec (S j) (length sequence)) as [Heq | Hneq].
      * inversion Hrun; subst. contradiction.
      * eapply IH; eassumption.
    + eapply IH; eassumption.
Qed.

(** A loop that is left by exhaustion was not left earlier. *)
Lemma match_loop_prefix (pre rest : list event) :
  forall j t j' t',
    match_loop sequence j t (pre ++ rest) = Ok (j', t') ->
    j' <> length sequence ->
    exists j'' t'',
      match_loop sequence j t pre = Ok (j'', t'') /\ j'' <> length sequence.
Proof.
  induction pre as [| e pre IH]; intros j t j' t' Hrun Hk; cbn [match_loop app] in *.
  - destruct rest as [| e rest]; cbn [match_loop] in Hrun.
    + inversion Hrun; subst. eauto.
    + destruct (nth_error sequence j) as [s |] eqn:Hn; [| discriminate].
      exists j, t. split; [reflexivity |].
      intros ->. assert (length sequence < length sequence); [| lia].
      apply nth_error_Some. congruence.
  - destruct (nth_error sequence j) as [s |]; [| discriminate].
    destruct (code e =? s)%Z.
    + destruct (Nat.eqb_spec (S j) (length sequence)) as [Heq | Hneq].
      * inversion Hrun; subst. contradiction.
      * eapply IH; eassumption.
    + eapply IH; eassumption.
Qed.

(** The candidate always has [j] entries. *)
Lemma match_loop_length (events : list event) :
  forall j t j' t',
    length t = j ->
    match_loop sequence j t events = Ok (j', t') ->
    length t' = j'.
Proof.
  induction events as [| e events IH]; intros j t j' t' Hlen Hrun; cbn [match_loop] in *.
  - inversion Hrun; subst. reflexivity.
  - destruct (nth_error sequence j) as [s |]; [| discriminate].
    destruct (code e =? s)%Z.
    + destruct (Nat.eqb (S j) (length sequence)).
      * inversion Hrun; subst. rewrite length_app. simpl. lia.
      * eapply IH; [| eassumption]. rewrite length_app. simpl. lia.
    + eapply IH; [| eassumption]. reflexivity.
Qed.

(** Progress never passes the length of the sequence. *)
Lemma match_loop_bound (events : list event) :
  forall j t j' t',
    j < length sequence ->
    match_loop sequence j t events = Ok (j', t') ->
    j' <= length sequence.
Proof.
  induction events as [| e events IH]; intros j t j' t' Hj Hrun; cbn [match_loop] in *.
  - inversion Hrun; subst. lia.
  - destruct (nth_error sequence j) as [s |]; [| discriminate].
    destruct (code e =? s)%Z.
    + destruct (Nat.eqb_spec (S j) (length sequence)) as [Heq | Hneq].
      * inversion Hrun; subst. lia.
      * eapply IH; [| eassumption]. lia.
    + eapply IH; [| eassumption]. lia.
Qed.

(** With a non-empty sequence and progress within it the loop never
    indexes out of range: it always leaves with a state. *)
Lemma match_loop_total (events : list event) :
  forall j t,
    j < length sequence ->
    exists j' t', match_loop sequence j t events = Ok (j', t').
Proof.
  induction events as [| e events IH]; intros j t Hj; cbn [match_loop].
  - eauto.
  - destruct (nth_error sequence j) as [s |] eqn:Hn.
    + destruct (code e =? s)%Z.
      * destruct (Nat.eqb_spec (S j) (length sequence)) as [Heq | Hneq]; [eauto |].
        apply IH. lia.
      * apply IH. lia.
    + apply nth_error_None in Hn. lia.
Qed.

Lemma firstn_snoc_nth_error (j : nat) (s : Z) :
  nth_error sequence j = Some s ->
  firstn (S j) sequence = firstn j sequence ++ [s].
Proof.
  revert j. induction sequence as [| x l IH]; intros [| j] Hn; simpl in *;
    try discriminate.
  - inversion Hn; subst. reflexivity.
  - f_equal. apply IH, Hn.
Qed.

(** Where the completed candidate lies in the visited events: either no
    reset happened and it starts with the candidate the loop was entered
    with, or it follows a stretch of events after which the loop was
    back at progress 0. *)
Lemma match_loop_found (events : list event) :
  forall j t cand,
    j < length sequence ->
    codes t = firstn j sequence ->
    match_loop sequence j t events = Ok (length sequence, cand) ->
    codes cand = sequence /\
    ((exists post, t ++ events = cand ++ post) \/
     (exists pre post,
         events = pre ++ cand ++ post /\
         match_loop sequence j t pre = Ok (0, []))).
Proof.
  induction events as [| e events IH]; intros j t cand Hj Ht Hrun.
  - cbn [match_loop] in Hrun. inversion Hrun; subst. lia.
  - cbn [match_loop] in Hrun.
    destruct (nth_error sequence j) as [s |] eqn:Hn; [| discriminate].
    destruct (Z.eqb_spec (code e) s) as [Hc | Hc].
    + assert (Ht' : codes (t ++ [e]) = firstn (S j) sequence).
      { unfold codes in *. rewrite map_app, Ht. simpl. rewrite Hc.
        symmetry. apply firstn_snoc_nth_error, Hn. }
      destruct (Nat.eqb_spec (S j) (length sequence)) as [Heq | Hneq].
      * inversion Hrun; subst cand. split.
        -- rewrite Ht', Heq. apply firstn_all.
        -- left. exists events. rewrite <- app_assoc. reflexivity.
      * destruct (IH (S j) (t ++ [e]) cand) as [Hcodes [[post Hpost] | (pre & post & Hev & Hpre)]];
          try assumption; [lia | |].
        -- split; [assumption |]. left. exists post.
           rewrite <- Hpost, <- app_assoc. reflexivity.
        -- split; [assumption |]. right. exists (e :: pre), post. split.
           ++ simpl. rewrite Hev. reflexivity.
           ++ rewrite match_loop_advance; [assumption | congruence | assumption].
    + destruct (IH 0 [] cand) as [Hcodes [[post Hpost] | (pre & post & Hev & Hpre)]];
        try assumption; [lia | reflexivity | |].
      * split; [assumption |]. right. exists [e], post. split.
        -- simpl in *. rewrite Hpost. reflexivity.
        -- rewrite match_loop_reset with (s := s) by assumption. reflexivity.
      * split; [assumption |]. right. exists (e :: pre), post. split.
        -- simpl. rewrite Hev. reflexivity.
        -- rewrite match_loop_reset with (s := s) by assumption. assumption.
Qed.

(** A stretch of events that spells the next part of the sequence without
    completing it is appended whole. *)
Lemma match_loop_run (c : list event) :
  forall j t,
    codes c = firstn (length c) (skipn j sequence) ->
    j + length c < length sequence ->
    match_loop sequence j t c = Ok (j + length c, t ++ c).
Proof.
  induction c as [| e c IH]; intros j t Hc Hlen; cbn [match_loop length codes map] in *.
  - rewrite Nat.add_0_r, app_nil_r. reflexivity.
  - destruct (skipn j sequence) as [| s l] eqn:Hskip; [discriminate |].
    simpl in Hc. inversion Hc as [[He Hrest]].
    assert (Hn : nth_error sequence j = Some s).
    { rewrite <- (firstn_skipn j sequence) at 1.
      rewrite nth_error_app2; rewrite length_firstn; [| lia].
      replace (j - Nat.min j (length sequence)) with 0 by lia.
      rewrite Hskip. reflexivity. }
    rewrite Hn, He, Z.eqb_refl.
    destruct (Nat.eqb_spec (S j) (length sequence)) as [Heq | Hneq]; [lia |].
    rewrite IH.
    + rewrite <- app_assoc. simpl. f_equal. f_equal. lia.
    + replace (skipn (S j) sequence) with l; [assumption |].
      change (S j) with (1 + j). rewrite <- skipn_skipn, Hskip. reflexivity.
    + lia.
Qed.

(** The result of the matcher, read off the state in which the loop is
    left. *)
Lemma find_sequence_running (events : list event) (j : nat) (t : list event) :
  match_loop sequence 0 [] events = Ok (j, t) ->
  j < length sequence ->
  find_sequence sequence events = Raise InsufficientMatchError.
Proof.
  intros Hrun Hj. unfold find_sequence. rewrite Hrun. simpl.
  rewrite (match_loop_length events 0 [] j t eq_refl Hrun).
  destruct (Nat.ltb_spec j (length sequence)); [reflexivity | lia].
Qed.

Lemma find_sequence_Ok (events cand : list event) :
  sequence <> [] ->
  find_sequence sequence events = Ok cand ->
  match_loop sequence 0 [] events = Ok (length sequence, cand).
Proof.
  intros Hne Hfind. unfold find_sequence in Hfind.
  assert (Hpos : 0 < length sequence) by (destruct sequence; simpl; [congruence | lia]).
  destruct (match_loop sequence 0 [] events) as [[j t] | e] eqn:Hrun; simpl in Hfind;
    [| discriminate].
  pose proof (match_loop_length events 0 [] j t eq_refl Hrun) as Hlen.
  pose proof (match_loop_bound events 0 [] j t Hpos Hrun) as Hle.
  destruct (Nat.ltb_spec (length t) (length sequence)); [discriminate |].
  inversion Hfind; subst. f_equal. f_equal. lia.
Qed.

End MatcherFacts.

(** A stretch of events that spells the whole sequence, met at progress
    0, is returned, whatever follows it. *)
Lemma match_loop_complete (sequence : list Z) (cand post : list event) :
  sequence <> [] ->
  codes cand = sequence ->
  match_loop sequence 0 [] (cand ++ post) = Ok (length sequence, cand).
Proof.
  intros Hne Hc.
  assert (Hlen : length cand = length sequence).
  { rewrite <- Hc. unfold codes. now rewrite length_map. }
  destruct (exists_last (l := cand)) as (c1 & e & ->).
  { intros ->. simpl in Hc. congruence. }
  rewrite length_app in Hlen. simpl in Hlen.
  unfold codes in Hc. rewrite map_app in Hc. simpl in Hc.
  rewrite <- app_assoc.
  rewrite match_loop_app with (j' := 0 + length c1) (t' := [] ++ c1).
  - change (0 + length c1) with (length c1). change ([] ++ c1) with c1.
    replace (length sequence) with (S (length c1)) by lia.
    apply match_loop_break; [| lia].
    rewrite <- Hc, nth_error_app2; rewrite length_map; [| lia].
    now rewrite Nat.sub_diag.
  - apply match_loop_run; [| lia].
    simpl. rewrite <- Hc, firstn_app, length_map, Nat.sub_diag. simpl.
    rewrite app_nil_r. rewrite <- (length_map code c1) at 1.
    symmetry. apply firstn_all.
  - lia.
Qed.

Lemma StronglySorted_middle {A} (R : A -> A -> Prop) (pre mid post : list A) :
  StronglySorted R (pre ++ mid ++ post) -> StronglySorted R mid.
Proof.
  induction pre as [| x pre IH]; simpl; intros H.
  - induction mid as [| y mid IHm]; simpl in *; [constructor |].
    apply StronglySorted_inv in H. destruct H as [H1 H2]. constructor.
    + apply IHm, H1.
    + rewrite Forall_app in H2. tauto.
  - apply IH. apply StronglySorted_inv in H. tauto.
Qed.

(** ** What the matcher returns *)

(** Where a successful match lies in the stream. *)
Lemma find_sequence_first_run (sequence : list Z) (events cand : list event) :
  sequence <> [] ->
  find_sequence sequence events = Ok cand ->
  exists pre post,
    events = pre ++ cand ++ post /\
    length cand = length sequence /\
    codes cand = sequence /\
    match_loop sequence 0 [] pre = Ok (0, []) /\
    (forall p q, pre ++ cand = p ++ q -> q <> [] ->
                 find_sequence sequence p = Raise InsufficientMatchError) /\
    (StronglySorted (fun a b => (sample a < sample b)%Z) events ->
     StronglySorted (fun a b => (sample a < sample b)%Z) cand).
Proof.
  intros Hne Hfind.
  assert (Hpos : 0 < length sequence) by (destruct sequence; simpl; [congruence | lia]).
  apply find_sequence_Ok in Hfind; [| assumption].
  destruct (match_loop_found sequence events 0 [] cand Hpos eq_refl Hfind)
    as [Hcodes Hwhere].
  assert (Hdec : exists pre post,
             events = pre ++ cand ++ post /\
             match_loop sequence 0 [] pre = Ok (0, [])).
  { destruct Hwhere as [[post Hpost] | (pre & post & Hev & Hpre)].
    - exists [], post. simpl in *. split; [assumption | reflexivity].
    - exists pre, post. split; assumption. }
  destruct Hdec as (pre & post & Hev & Hpre).
  assert (Hlen : length cand = length sequence).
  { rewrite <- Hcodes. unfold codes. now rewrite length_map. }
  exists pre, post. repeat split; try assumption.
  + intros p q Hpq Hq.
    apply app_eq_app in Hpq. destruct Hpq as [l [[Hp Hc] | [Hp Hc]]].
    * (* [p] ends inside the stretch before the candidate *)
      rewrite Hp in Hpre.
      destruct (match_loop_prefix sequence p l 0 [] 0 [] Hpre) as (j'' & t'' & Hrun & Hj'');
        [lia |].
      apply find_sequence_running with (j := j'') (t := t''); [assumption |].
      pose proof (match_loop_bound sequence p 0 [] j'' t'' Hpos Hrun). lia.
    * (* [p] ends inside the candidate *)
      subst p.
      assert (Hshort : length l < length sequence).
      { rewrite <- Hlen, Hc, length_app. destruct q; [congruence | simpl; lia]. }
      apply find_sequence_running with (j := 0 + length l) (t := [] ++ l); [| lia].
      rewrite match_loop_app with (j' := 0) (t' := []); [| assumption | lia].
      apply match_loop_run; [| lia].
      simpl. rewrite <- Hcodes, Hc. unfold codes. rewrite map_app, firstn_app.
      rewrite length_map, Nat.sub_diag. simpl. rewrite app_nil_r.
      rewrite <- (length_map code l) at 1. symmetry. apply firstn_all.
  + intros Hsorted. rewrite Hev in Hsorted.
    eapply StronglySorted_middle; eassumption.
Qed.

(** The matcher either raises the not-enough-events error or returns a
    candidate as long as the sequence. *)
Lemma find_sequence_outcome (sequence : list Z) (events : list event) :
  sequence <> [] ->
  find_sequence sequence events = Raise InsufficientMatchError \/
  exists cand,
    find_sequence sequence events = Ok cand /\ length cand = length sequence.
Proof.
  intros Hne.
  assert (Hpos : 0 < length sequence) by (destruct sequence; simpl; [congruence | lia]).
  destruct (match_loop_total sequence events 0 [] Hpos) as (j & t & Hrun).
  pose proof (match_loop_bound sequence events 0 [] j t Hpos Hrun) as Hle.
  pose proof (match_loop_length sequence events 0 [] j t eq_refl Hrun) as Hlen.
  destruct (Nat.eq_dec j (length sequence)) as [Heq | Hneq].
  - right. exists t. split; [| lia].
    unfold find_sequence. rewrite Hrun. simpl.
    destruct (Nat.ltb_spec (length t) (length sequence)); [lia | reflexivity].
  - left. apply find_sequence_running with (j := j) (t := t); [assumption | lia].
Qed.

(** The matcher never returns a candidate shorter or longer than the
    sequence, whatever the sequence. *)
Lemma find_sequence_full (sequence : list Z) (events cand : list event) :
  find_sequence sequence events = Ok cand -> length cand = length sequence.
Proof.
  intros Hfind. destruct sequence as [| s sequence].
  - destruct events as [| e events]; [| discriminate Hfind].
    inversion Hfind; subst. reflexivity.
  - destruct (find_sequence_outcome (s :: sequence) events) as [H | [c [H Hlen]]];
      congruence.
Qed.

(** ** The learned sequence: [np.unique] *)

Lemma insert_unique_In (x y : Z) (l : list Z) :
  In y (insert_unique x l) <-> y = x \/ In y l.
Proof.
  induction l as [| a l IH]; simpl.
  - intuition.
  - destruct (Z.ltb_spec x a); [simpl; intuition |].
    destruct (Z.eqb_spec x a); [subst; simpl; intuition |].
    simpl. rewrite IH. intuition.
Qed.

Lemma np_unique_In (x : Z) (l : list Z) : In x (np_unique l) <-> In x l.
Proof.
  induction l as [| a l IH]; simpl; [tauto |].
  rewrite insert_unique_In, IH. intuition.
Qed.

Lemma insert_unique_sorted (x : Z) (l : list Z) :
  StronglySorted Z.lt l -> StronglySorted Z.lt (insert_unique x l).
Proof.
  induction l as [| a l IH]; simpl; intros Hs.
  - repeat constructor.
  - pose proof (StronglySorted_inv Hs) as [Hl Ha].
    destruct (Z.ltb_spec x a).
    + constructor; [assumption |]. constructor; [assumption |].
      eapply Forall_impl; [| exact Ha]. simpl. intros; lia.
    + destruct (Z.eqb_spec x a); [assumption |].
      constructor; [apply IH, Hl |].
      apply Forall_forall. intros y Hy. apply insert_unique_In in Hy.
      destruct Hy as [-> | Hy]; [lia |].
      rewrite Forall_forall in Ha. apply Ha, Hy.
Qed.

(** [np.unique] yields its entries in strictly ascending order. *)
Lemma np_unique_sorted (l : list Z) : StronglySorted Z.lt (np_unique l).
Proof.
  induction l as [| a l IH]; simpl; [constructor |].
  apply insert_unique_sorted, IH.
Qed.

Lemma StronglySorted_lt_NoDup (l : list Z) : StronglySorted Z.lt l -> NoDup l.
Proof.
  induction 1 as [| a l Hs IH Ha]; constructor; [| assumption].
  intros Hin. rewrite Forall_forall in Ha. specialize (Ha a Hin). lia.
Qed.

Lemma np_unique_NoDup (l : list Z) : NoDup (np_unique l).
Proof. apply StronglySorted_lt_NoDup, np_unique_sorted. Qed.

Lemma first_seen_from_In (l seen : list Z) (x : Z) :
  In x (first_seen_from seen l) <-> In x l /\ ~ In x seen.
Proof.
  revert seen. induction l as [| a l IH]; intros seen; simpl; [tauto |].
  destruct (existsb (Z.eqb a) seen) eqn:Hex.
  - apply existsb_exists in Hex. destruct Hex as (y & Hy & Heq).
    apply Z.eqb_eq in Heq. subst y. rewrite IH. intuition congruence.
  - assert (Hna : ~ In a seen).
    { intros Hin. assert (Ht : existsb (Z.eqb a) seen = true); [| congruence].
      apply existsb_exists. exists a. split; [assumption | apply Z.eqb_refl]. }
    simpl. rewrite IH. simpl. split.
    + intros [-> | [H1 H2]]; [tauto |]. split; [tauto |]. intros H. apply H2. now right.
    + intros [[-> | H1] H2]; [now left |].
      destruct (Z.eq_dec a x) as [-> | Hne]; [now left |].
      right. split; [assumption |]. intros [-> | H]; [congruence | tauto].
Qed.

Lemma first_seen_from_NoDup (l seen : list Z) : NoDup (first_seen_from seen l).
Proof.
  revert seen. induction l as [| a l IH]; intros seen; simpl; [constructor |].
  destruct (existsb (Z.eqb a) seen); [apply IH |].
  constructor; [| apply IH].
  rewrite first_seen_from_In. simpl. tauto.
Qed.

(** The sorted sequence holds the same distinct codes as the first-seen
    order, possibly at other places. *)
Lemma np_unique_first_seen_Permutation (l : list Z) :
  Permutation (np_unique l) (first_seen_order l).
Proof.
  apply NoDup_Permutation.
  - apply np_unique_NoDup.
  - apply first_seen_from_NoDup.
  - intros x. unfold first_seen_order.
    rewrite np_unique_In, first_seen_from_In. simpl. tauto.
Qed.

Lemma drop_markers_In (e : event) (events : list event) :
  In e (drop_markers events) <-> In e events /\ (code e < 90)%Z.
Proof.
  unfold drop_markers. rewrite filter_In.
  destruct (Z.ltb_spec (code e) 90); intuition (try lia; try discriminate).
Qed.

Lemma drop_markers_below (events : list event) :
  Forall (fun e => (code e < 90)%Z) (drop_markers events).
Proof. apply Forall_forall. intros e He. apply drop_markers_In in He. tauto. Qed.

Lemma sorted_same_members (l1 : list Z) :
  forall l2,
    StronglySorted Z.lt l1 -> StronglySorted Z.lt l2 ->
    (forall x, In x l1 <-> In x l2) ->
    l1 = l2.
Proof.
  induction l1 as [| a l1 IH]; intros [| b l2] H1 H2 Hm.
  - reflexivity.
  - exfalso. apply (proj2 (Hm b)). now left.
  - exfalso. apply (proj1 (Hm a)). now left.
  - apply StronglySorted_inv in H1, H2. destruct H1 as [H1 Ha], H2 as [H2 Hb].
    rewrite Forall_forall in Ha, Hb.
    assert (Hab : a = b).
    { destruct (proj1 (Hm a) (or_introl eq_refl)) as [Heq | Hin]; [congruence |].
      destruct (proj2 (Hm b) (or_introl eq_refl)) as [Heq | Hin']; [congruence |].
      specialize (Ha b Hin'). specialize (Hb a Hin). lia. }
    subst b. f_equal. apply IH; try assumption.
    intros x. split; intros Hx.
    + destruct (proj1 (Hm x) (or_intror Hx)) as [Heq | Hin]; [| assumption].
      specialize (Ha x Hx). lia.
    + destruct (proj2 (Hm x) (or_intror Hx)) as [Heq | Hin]; [| assumption].
      specialize (Hb x Hx). lia.
Qed.

(** ** Relabeling *)

Lemma relabel_length (c : Z) (events : list event) :
  length (relabel c events) = length events.
Proof. unfold relabel. apply length_map. Qed.

Lemma relabel_nth_error (c : Z) (events : list event) (i : nat) (e : event) :
  nth_error events i = Some e ->
  nth_error (relabel c events) i =
    Some (if (code e =? c)%Z then e else set_code e non_target).
Proof. intros H. unfold relabel. rewrite nth_error_map, H. reflexivity. Qed.

Lemma relabel_codes_In (c : Z) (events : list event) (l : Z) :
  In l (codes (relabel c events)) <->
  (l = c /\ exists e, In e events /\ code e = c) \/
  (l = non_target /\ exists e, In e events /\ code e <> c).
Proof.
  unfold codes, relabel. rewrite map_map, in_map_iff. split.
  - intros (e & He & Hin). destruct (Z.eqb_spec (code e) c) as [Hc | Hc].
    + left. split; [congruence | eauto].
    + right. simpl in He. split; [congruence | eauto].
  - intros [[-> (e & Hin & Hc)] | [-> (e & Hin & Hc)]]; exists e; split; try assumption.
    + destruct (Z.eqb_spec (code e) c); [assumption | contradiction].
    + destruct (Z.eqb_spec (code e) c); [contradiction | reflexivity].
Qed.

Lemma relabel_counts (c : Z) (events : list event) :
  c <> non_target ->
  count_code c (relabel c events) + count_code non_target (relabel c events)
  = length events.
Proof.
  intros Hc. unfold count_code, relabel.
  induction events as [| e events IH]; [reflexivity |].
  cbn [map filter length].
  destruct (Z.eqb_spec (code e) c) as [He | He].
  - rewrite (proj2 (Z.eqb_eq (code e) c) He).
    replace (code e =? non_target)%Z with false
      by (symmetry; apply Z.eqb_neq; congruence).
    cbn [length]. lia.
  - cbn [set_code code].
    replace (non_target =? c)%Z with false
      by (symmetry; apply Z.eqb_neq; congruence).
    rewrite Z.eqb_refl. cbn [length]. lia.
Qed.

(** ** Running [preprocess] *)

Section PreprocessFacts.

Context (E : Env).

Ltac acquired H :=
  unfold acquire, Exn.bind in H;
  repeat match type of H with
         | context [match ?r with _ => _ end] =>
             let Hr := fresh "Hcall" in
             destruct r eqn:Hr; try discriminate H
         end.

(** A training-mode pass over an acquired recording: the sequence is
    overwritten with the sorted distinct retained codes, the retained
    events are relabeled and handed to [Epochs]. *)
Lemma preprocess_train_run (w : world E) (data : list (list (score E)))
      (r : raw E) (found : list event) :
  mode (self w) = train_mode ->
  acquire E (self w) data = Ok (r, found) ->
  let events := drop_markers found in
  let relabeled := relabel (training_class (self w)) events in
  let c' := with_sequence (self w) (np_unique (codes events)) in
  let tr := trace w ++ acquire_calls E (self w)
            ++ [Logged DEBUG (FoundEvents (codes events));
                Logged DEBUG (Labels (codes relabeled));
                Called_Epochs relabeled] in
  preprocess E data w =
    match Epochs E r relabeled event_id (epoch_start (self w)) (epoch_end (self w)) with
    | Ok (X, labels) =>
        (Ok (X, labels), mk_world c' (tr ++ [Logged INFO (EpochsExtracted (length X))]))
    | Raise e => (Raise e, mk_world c' tr)
    end.
Proof.
  intros Hmode Hacq. cbv zeta.
  unfold preprocess, acquire_calls. unfold_prog. acquired Hacq.
  inversion Hacq; subst; clear Hacq.
  destruct (ENOPHONE_BOARD E =? board_id (self w))%Z; cbn in *;
    [rewrite Hcall3 | inversion Hcall3; subst]; cbn;
    rewrite Hcall4; cbn; rewrite Hmode; cbn.
  all: destruct (Epochs E r _ _ _ _) as [[X labels] | e]; cbn;
    repeat rewrite <- app_assoc; reflexivity.
Qed.

(** An inference-mode pass over an acquired recording: the matcher runs
    on the retained events with the stored sequence, which is left as it
    is; what it returns is relabeled and handed to [Epochs]. *)
Lemma preprocess_predict_run (w : world E) (data : list (list (score E)))
      (r : raw E) (found : list event) :
  mode (self w) = predict_mode ->
  acquire E (self w) data = Ok (r, found) ->
  let events := drop_markers found in
  let tr0 := trace w ++ acquire_calls E (self w)
             ++ [Logged DEBUG (FoundEvents (codes events));
                 Logged DEBUG (UsingSequence (sequence (self w)))] in
  preprocess E data w =
    match find_sequence (sequence (self w)) events with
    | Raise e => (Raise e, mk_world (self w) tr0)
    | Ok trial =>
        match relabel_column (training_class (self w)) (np_array trial) with
        | Raise e =>
            (Raise e, mk_world (self w) (tr0 ++ [Logged INFO (FoundMatching trial)]))
        | Ok relabeled =>
            let tr1 := tr0 ++ [Logged INFO (FoundMatching trial);
                               Logged DEBUG (Labels (codes relabeled));
                               Called_Epochs relabeled] in
            match Epochs E r relabeled event_id
                    (epoch_start (self w)) (epoch_end (self w)) with
            | Ok (X, labels) =>
                (Ok (X, labels),
                 mk_world (self w) (tr1 ++ [Logged INFO (EpochsExtracted (length X))]))
            | Raise e => (Raise e, mk_world (self w) tr1)
            end
        end
    end.
Proof.
  intros Hmode Hacq. cbv zeta.
  unfold preprocess, acquire_calls. unfold_prog. acquired Hacq.
  inversion Hacq; subst; clear Hacq.
  destruct (ENOPHONE_BOARD E =? board_id (self w))%Z; cbn in *;
    [rewrite Hcall3 | inversion Hcall3; subst]; cbn;
    rewrite Hcall4; cbn; rewrite Hmode; cbn.
  all: destruct (find_sequence _ _) as [trial | e]; cbn;
    [| repeat rewrite <- app_assoc; reflexivity].
  all: destruct (relabel_column _ _) as [relabeled | e]; cbn;
    [| repeat rewrite <- app_assoc; reflexivity].
  all: destruct (Epochs E r _ _ _ _) as [[X labels] | e]; cbn;
    repeat rewrite <- app_assoc; reflexivity.
Qed.

End PreprocessFacts.

Lemma match_loop_incl (sequence : list Z) (events : list event) :
  forall j t j' t',
    match_loop sequence j t events = Ok (j', t') ->
    incl t' (t ++ events).
Proof.
  induction events as [| e events IH]; intros j t j' t' Hrun; cbn [match_loop] in Hrun.
  - inversion Hrun; subst. rewrite app_nil_r. apply incl_refl.
  - destruct (nth_error sequence j) as [s |]; [| discriminate].
    destruct (code e =? s)%Z.
    + destruct (Nat.eqb (S j) (length sequence)).
      * inversion Hrun; subst. intros x Hx. apply in_app_iff in Hx.
        apply in_app_iff. simpl in *. tauto.
      * apply IH in Hrun. intros x Hx. apply Hrun in Hx.
        rewrite <- app_assoc in Hx. exact Hx.
    + apply IH in Hrun. intros x Hx. apply Hrun in Hx. simpl in Hx.
      apply in_app_iff. right. now right.
Qed.

(** Whatever the stored sequence, the matched events are events of the
    stream. *)
Lemma find_sequence_incl (sequence : list Z) (events trial : list event) :
  find_sequence sequence events = Ok trial -> incl trial events.
Proof.
  unfold find_sequence. intros H.
  destruct (match_loop sequence 0 [] events) as [[j t] | e] eqn:Hrun; simpl in H;
    [| discriminate].
  destruct (Nat.ltb (length t) (length sequence)); [discriminate |].
  inversion H; subst. apply (match_loop_incl _ _ _ _ _ _ Hrun).
Qed.

(** ** Running [train] *)

Section TrainFacts.

Context (E : Env).

(** [evaluate] with a fitted scaler at hand. *)
Lemma evaluate_run (w : world E) (sc : scaler E) (X : list (list (score E)))
      (y : list Z) :
  scaler_ (self w) = Some sc ->
  evaluate E X y w =
    match transform E sc X with
    | Raise e => (Raise e, mk_world (self w) (trace w ++ [Called_transform X]))
    | Ok X' =>
        match model_predict E (model_ (self w)) X' with
        | Raise e =>
            (Raise e, mk_world (self w) (trace w ++ [Called_transform X; Called_predict X']))
        | Ok y_pred =>
            match f1_score E y y_pred with
            | Raise e =>
                (Raise e,
                 mk_world (self w)
                   (trace w ++ [Called_transform X; Called_predict X';
                                Called_f1_score y y_pred]))
            | Ok f1 =>
                (Ok (mean_equal E y_pred y, f1),
                 mk_world (self w)
                   (trace w ++ [Called_transform X; Called_predict X';
                                Called_f1_score y y_pred;
                                Logged INFO (EvalAccuracy (mean_equal E y_pred y));
                                Logged INFO (EvalF1 f1)]))
            end
        end
    end.
Proof.
  intros Hsc. unfold evaluate, scaler_transform. unfold_prog. cbn. rewrite Hsc. cbn.
  destruct (transform E sc X) as [X' | e]; cbn; [| reflexivity].
  destruct (model_predict E _ X') as [y_pred | e]; cbn;
    [| repeat rewrite <- app_assoc; reflexivity].
  destruct (f1_score E y y_pred) as [f1 | e]; cbn;
    repeat rewrite <- app_assoc; reflexivity.
Qed.

(** [train] from the cross-validation on, after a preprocessing pass, a
    split, the optional oversampling and the scaler fit that all
    returned.  Nothing in [train] handles an exception: whichever call
    raises first ends the method with that exception, and the calls after
    it are not made. *)
Lemma train_run (w w1 : world E) (data : list (list (score E))) (sc sc' : scaler E)
      (oversample : bool) (seed : Z)
      (prep_data : list (list (list (score E)))) (labels : list Z)
      (X X_train X_test X_res X_scaled : list (list (score E)))
      (y_train y_test y_res : list Z) :
  preprocess E data w = (Ok (prep_data, labels), w1) ->
  reshape_rows prep_data = Ok X ->
  let y := label_encode labels in
  train_test_split E X y seed = Ok (X_train, X_test, y_train, y_test) ->
  (if oversample then fit_resample E minority seed X_train y_train
   else Ok (X_train, y_train)) = Ok (X_res, y_res) ->
  fit_transform E sc X_res = Ok (sc', X_scaled) ->
  let c := with_scaler (with_prep (self w1) X y) sc' in
  let n := cv_splits (self w1) in
  let m := model_ (self w1) in
  let tr := trace w1
            ++ [Logged DEBUG (EncodedLabels y); Called_train_test_split X y seed]
            ++ (if oversample then [Called_fit_resample minority seed X_train y_train]
                else [])
            ++ [Logged INFO (TrainingShape (length X_res) (length y_res));
                Called_fit_transform X_res;
                Called_cross_val_score X y n accuracy_scoring] in
  train E data sc oversample seed w =
    match cross_val_score E m X y n random_state accuracy_scoring with
    | Raise e => (Raise e, mk_world c tr)
    | Ok cv_accuracy =>
        let tr := tr ++ [Called_cross_val_score X y n weighted_f1_scoring] in
        match cross_val_score E m X y n random_state weighted_f1_scoring with
        | Raise e => (Raise e, mk_world c tr)
        | Ok cv_f1 =>
            let tr := tr ++ [Logged INFO (CVAccuracy cv_accuracy);
                             Logged INFO (CVF1 cv_f1);
                             Called_fit X_scaled y_res] in
            match fit E m X_scaled y_res with
            | Raise e => (Raise e, mk_world c tr)
            | Ok fitted =>
                match evaluate E X_test y_test (mk_world (with_model c fitted) tr) with
                | (Ok _, w') => (Ok tt, w')
                | (Raise e, w') => (Raise e, w')
                end
            end
        end
    end.
Proof.
  intros Hprep HX y Hsplit Hres Hscale. cbv zeta.
  unfold train, cross_validate. unfold_prog. rewrite Hprep. cbn. rewrite HX. cbn.
  fold y. rewrite Hsplit. cbn.
  destruct oversample; cbn; rewrite ?Hres; cbn; inversion Hres; subst; clear Hres.
  all: rewrite Hscale; cbn.
  all: destruct (cross_val_score E _ X y _ random_state accuracy_scoring) as [a1 | e]; cbn;
    [| repeat rewrite <- app_assoc; reflexivity].
  all: destruct (cross_val_score E _ X y _ random_state weighted_f1_scoring) as [a2 | e]; cbn;
    [| repeat rewrite <- app_assoc; reflexivity].
  all: destruct (fit E _ X_scaled _) as [fitted | e]; cbn;
    [| repeat rewrite <- app_assoc; reflexivity].
  all: repeat rewrite <- app_assoc; cbn; reflexivity.
Qed.

End TrainFacts.

(** ** Running [predict] *)

Section PredictFacts.

Context (E : Env).

(** Whatever [preprocess] raises is caught, logged as an error, and
    turned into [None]. *)
Lemma predict_preprocess_raises (w w1 : world E) (data : list (list (score E)))
      (proba group : bool) (e : exn) :
  preprocess E data w = (Raise e, w1) ->
  predict E data proba group w
  = (Ok NoResult,
     mk_world (self w1) (trace w1 ++ [Logged ERROR (PreprocessError e)])).
Proof.
  intros Hprep. unfold predict. unfold_prog. rewrite Hprep. reflexivity.
Qed.

(** After a preprocessing pass that returned, [predict] is the rest of
    its body, outside any handler. *)
Lemma predict_preprocess_returns (w w1 : world E) (data : list (list (score E)))
      (proba group : bool) (X : list (list (list (score E)))) (labels : list Z) :
  preprocess E data w = (Ok (X, labels), w1) ->
  predict E data proba group w
  = match reshape_rows X with
    | Raise e => (Raise e, w1)
    | Ok Xr =>
        match scaler_transform E Xr w1 with
        | (Raise e, w2) => (Raise e, w2)
        | (Ok Xs, w2) =>
            if negb group then
              if negb proba then
                match predict_class E Xs w2 with
                | (Ok y, w3) => (Ok (Classes y), w3)
                | (Raise e, w3) => (Raise e, w3)
                end
              else
                match predict_probabilities E Xs w2 with
                | (Ok p, w3) => (Ok (Probabilities p), w3)
                | (Raise e, w3) => (Raise e, w3)
                end
            else
              match group_predictions E Xs proba w2 with
              | (Ok d, w3) => (Ok (Grouped d), w3)
              | (Raise e, w3) => (Raise e, w3)
              end
        end
    end.
Proof.
  intros Hprep. unfold predict.
  unfold Classifier.pbind at 1. unfold Classifier.try_except.
  unfold Classifier.pbind at 1. rewrite Hprep.
  unfold Classifier.ret at 1. cbv beta iota.
  unfold Classifier.pbind at 1. unfold Classifier.lift at 1.
  destruct (reshape_rows X) as [Xr | e]; [| reflexivity].
  unfold Classifier.pbind at 1.
  destruct (scaler_transform E Xr w1) as [[Xs | e] w2]; [| reflexivity].
  destruct group, proba; cbn [negb]; unfold Classifier.pbind at 1.
  - destruct (group_predictions E Xs true w2) as [[d | e] w3]; reflexivity.
  - destruct (group_predictions E Xs false w2) as [[d | e] w3]; reflexivity.
  - destruct (predict_probabilities E Xs w2) as [[p | e] w3]; reflexivity.
  - destruct (predict_class E Xs w2) as [[y | e] w3]; reflexivity.
Qed.

End PredictFacts.

(** ** [np.argmax], [str] and the output dictionary *)

Section ArgmaxFacts.

Context {A : Type} (ltb : A -> A -> bool).
Hypothesis ltb_order : strict_total ltb.

Lemma argmax_from_spec (l : list A) :
  forall pre best_i best,
    nth_error pre best_i = Some best ->
    (forall x, In x pre -> ltb best x = false) ->
    (forall k x, k < best_i -> nth_error pre k = Some x -> ltb x best = true) ->
    exists m,
      nth_error (pre ++ l) (argmax_from ltb best_i best (length pre) l) = Some m /\
      (forall x, In x (pre ++ l) -> ltb m x = false) /\
      (forall k x, k < argmax_from ltb best_i best (length pre) l ->
                   nth_error (pre ++ l) k = Some x -> ltb x m = true).
Proof.
  destruct ltb_order as (Hirr & Htrans & Htot).
  induction l as [| x l IH]; intros pre best_i best Hbest Hmax Hfirst.
  - simpl. rewrite app_nil_r. exists best. auto.
  - assert (Hlt : best_i < length pre) by (apply nth_error_Some; congruence).
    cbn [argmax_from].
    replace (pre ++ x :: l) with ((pre ++ [x]) ++ l)
      by (rewrite <- app_assoc; reflexivity).
    replace (S (length pre)) with (length (pre ++ [x]))
      by (rewrite length_app; simpl; lia).
    destruct (ltb best x) eqn:Hbx.
    + apply IH.
      * rewrite nth_error_app2 by lia. now rewrite Nat.sub_diag.
      * intros y Hy. apply in_app_iff in Hy. destruct Hy as [Hy | [<- | []]].
        -- destruct (ltb x y) eqn:Hxy; [| reflexivity].
           pose proof (Hmax y Hy) as Hby.
           rewrite (Htrans _ _ _ Hbx Hxy) in Hby. discriminate Hby.
        -- apply Hirr.
      * intros k y Hk Hy. rewrite nth_error_app1 in Hy by lia.
        assert (Hin : In y pre) by (eapply nth_error_In; eassumption).
        destruct (ltb y best) eqn:Hyb.
        -- eapply Htrans; eassumption.
        -- rewrite (Htot y best Hyb (Hmax y Hin)). assumption.
    + apply IH.
      * rewrite nth_error_app1 by lia. assumption.
      * intros y Hy. apply in_app_iff in Hy. destruct Hy as [Hy | [<- | []]]; auto.
      * intros k y Hk Hy. rewrite nth_error_app1 in Hy by lia. eauto.
Qed.

(** [np.argmax] of a non-empty array is the first position of a largest
    entry. *)
Lemma argmax_spec (l : list A) (best : nat) :
  argmax ltb l = Ok best ->
  exists m,
    nth_error l best = Some m /\
    (forall x, In x l -> ltb m x = false) /\
    (forall k x, k < best -> nth_error l k = Some x -> ltb x m = true).
Proof.
  destruct l as [| x l]; simpl; [discriminate |].
  intros H. inversion H; subst; clear H.
  destruct ltb_order as (Hirr & _).
  apply (argmax_from_spec l [x] 0 x).
  - reflexivity.
  - intros y [<- | []]. apply Hirr.
  - intros k y Hk. lia.
Qed.

End ArgmaxFacts.

Lemma argmax_nonempty {A} (ltb : A -> A -> bool) (l : list A) :
  l <> [] -> exists best, argmax ltb l = Ok best.
Proof. destruct l; [congruence | simpl; eauto]. Qed.

Lemma to_int_nonnil (z : Z) :
  Z.to_int z <> Decimal.Pos Decimal.Nil /\ Z.to_int z <> Decimal.Neg Decimal.Nil.
Proof.
  destruct z; simpl; split; try discriminate; intros [= H];
    apply (DecimalPos.Unsigned.to_uint_nonnil _ H).
Qed.

(** [str] tells integers apart. *)
Lemma str_inj (a b : Z) : str a = str b -> a = b.
Proof.
  unfold str. intros H. apply DecimalZ.to_int_inj.
  destruct (to_int_nonnil a) as [Ha1 Ha2]. destruct (to_int_nonnil b) as [Hb1 Hb2].
  assert (Hs : Some (Z.to_int a) = Some (Z.to_int b)).
  { rewrite <- (NilZero.isi _ Ha1 Ha2), <- (NilZero.isi _ Hb1 Hb2), H. reflexivity. }
  now inversion Hs.
Qed.

Lemma NoDup_map_str (l : list Z) : NoDup l -> NoDup (map str l).
Proof.
  induction 1 as [| a l Ha Hl IH]; simpl; constructor; [| assumption].
  rewrite in_map_iff. intros (b & Hb & Hin). apply str_inj in Hb. subst. contradiction.
Qed.

(** No integer prints as the key of the decision. *)
Lemma str_not_class (c : Z) : str c <> "class"%string.
Proof.
  unfold str. destruct (Z.to_int c) as [u | u]; simpl.
  - destruct u; simpl; discriminate.
  - discriminate.
Qed.

Lemma skipn_cons_inv {A} (l : list A) :
  forall idx c r,
    skipn idx l = c :: r ->
    nth_error l idx = Some c /\ skipn (S idx) l = r.
Proof.
  induction l as [| x l IH]; intros [| idx] c r H; simpl in *; try discriminate.
  - inversion H; subst. auto.
  - apply IH, H.
Qed.

Section FillFacts.

Context (E : Env).

Lemma dict_set_fresh (d : dict E) (k : string) (v : value E) :
  ~ In k (map fst d) -> dict_set E d k v = d ++ [(k, v)].
Proof.
  induction d as [| [k' v'] d IH]; simpl; intros Hk; [reflexivity |].
  destruct (String.eqb_spec k k') as [-> | Hne]; [tauto |].
  rewrite IH; [reflexivity | tauto].
Qed.

(** The loop over the sequence adds one entry per code, in the order of
    the sequence, each with the value at the same position. *)
Lemma fill_output_run (seq : list Z) (y : list (value E)) (todo : list Z) :
  forall idx output,
    skipn idx seq = todo ->
    length seq <= length y ->
    NoDup (map fst output ++ map str todo) ->
    fill_output E seq y idx todo output
    = Ok (output ++ combine (map str todo) (firstn (length todo) (skipn idx y))).
Proof.
  induction todo as [| c todo IH]; intros idx output Hskip Hlen Hnd.
  - simpl. rewrite app_nil_r. reflexivity.
  - destruct (skipn_cons_inv seq idx c todo Hskip) as [Hc Hrest].
    assert (Hidx : idx < length seq) by (apply nth_error_Some; congruence).
    destruct (nth_error y idx) as [v |] eqn:Hv.
    2: { apply nth_error_None in Hv. lia. }
    cbn [fill_output]. rewrite Hc, Hv.
    assert (Hfresh : ~ In (str c) (map fst output)).
    { intros Hin. simpl in Hnd. apply NoDup_remove_2 in Hnd. apply Hnd.
      apply in_app_iff. now left. }
    rewrite dict_set_fresh by assumption.
    rewrite IH; [| assumption | assumption |].
    + rewrite <- app_assoc. f_equal. simpl.
      assert (Hy : skipn idx y = v :: skipn (S idx) y).
      { clear - Hv. revert idx Hv. induction y as [| a y IHy]; intros [| idx] Hv;
          simpl in *; try discriminate.
        - now inversion Hv.
        - apply IHy, Hv. }
      rewrite Hy. reflexivity.
    + rewrite map_app, <- app_assoc. simpl. exact Hnd.
Qed.

End FillFacts.

(** ** The first occurrence of a sequence *)

Lemma first_run_with_codes_eq (sequence : list Z) (events : list event) :
  first_run_with_codes sequence events
  = if list_eq_dec Z.eq_dec (codes (firstn (length sequence) events)) sequence
    then Some (firstn (length sequence) events)
    else match events with
         | [] => None
         | _ :: rest => first_run_with_codes sequence rest
         end.
Proof. destruct events; reflexivity. Qed.

(** Wherever the codes of the sequence stand in the stream, the first
    occurrence exists and starts there or earlier. *)
Lemma first_run_with_codes_found (sequence : list Z) (cand post : list event) :
  codes cand = sequence ->
  forall pre,
  exists pre' first post',
    first_run_with_codes sequence (pre ++ cand ++ post) = Some first /\
    pre ++ cand ++ post = pre' ++ first ++ post' /\
    codes first = sequence /\
    length pre' <= length pre.
Proof.
  intros Hcodes.
  assert (Hlen : length cand = length sequence)
    by (rewrite <- Hcodes; unfold codes; rewrite length_map; reflexivity).
  induction pre as [| a pre IH].
  - exists [], cand, post. rewrite first_run_with_codes_eq. cbn [app].
    rewrite <- Hlen, firstn_app, Nat.sub_diag, firstn_all, firstn_O, app_nil_r.
    destruct (list_eq_dec Z.eq_dec (codes cand) sequence) as [_ | Hno];
      [| contradiction].
    repeat split; [assumption | cbn; lia].
  - rewrite first_run_with_codes_eq.
    destruct (list_eq_dec Z.eq_dec
                (codes (firstn (length sequence) ((a :: pre) ++ cand ++ post)))
                sequence) as [Hyes | Hno].
    + exists [], (firstn (length sequence) ((a :: pre) ++ cand ++ post)),
        (skipn (length sequence) ((a :: pre) ++ cand ++ post)).
      cbn [app]. rewrite firstn_skipn.
      repeat split; [assumption | cbn; lia].
    + destruct IH as (pre' & first & post' & Hrun & Hsplit & Hc & Hle).
      exists (a :: pre'), first, post'. cbn [app].
      repeat split; [assumption | f_equal; assumption | assumption | cbn; lia].
Qed.

(** * The statements of the specification *)

(** ** The matcher returns the first run it completes *)

(** The claim as the specification words it, at one recording: the
    pulses 1, 1, 2, 3, 5, 1, 2, 3 give eight events, and the classifier
    looks for the sequence [1, 2, 3].  The first run of three events whose
    codes are 1, 2, 3 is the one of the second, third and fourth event.
    The scan does not return it: the second event is the one that breaks
    the attempt begun at the first, it is not tested as a start, and the
    run that is returned, and handed to [Epochs], is the one of the last
    three events. *)
Lemma C1_first_run_is_passed_over :
  let data := Demo.spaced_recording [1; 1; 2; 3; 5; 1; 2; 3]%Z in
  let c := with_mode (with_sequence Demo.fresh [1; 2; 3]%Z) predict_mode in
  let first := [mk_event 4001 0 1; mk_event 6002 0 2; mk_event 8003 0 3] in
  let returned := [mk_event 12005 0 1; mk_event 14006 0 2; mk_event 16007 0 3] in
  let events := [mk_event 2000 0 1] ++ first ++ [mk_event 10004 0 5] ++ returned in
  match acquire Demo.env c data with
  | Ok (_, found) => drop_markers found = events
  | Raise _ => False
  end /\
  codes first = [1; 2; 3]%Z /\
  first_run_with_codes [1; 2; 3]%Z events = Some first /\
  find_sequence [1; 2; 3]%Z events = Ok returned /\
  In (Called_Epochs (E := Demo.env)
        [mk_event 12005 0 1; mk_event 14006 0 3; mk_event 16007 0 3])
     (trace (snd (preprocess Demo.env data (Demo.start c)))) /\
  find_sequence [1; 2; 3]%Z events <> Ok first.
Proof.
  cbv zeta. split; [vm_compute; reflexivity |].
  split; [reflexivity |]. split; [reflexivity |]. split; [reflexivity |].
  split; [vm_compute; tauto |].
  vm_compute. discriminate.
Qed.

(** C1 (amended): for a non-empty stimulus sequence of length k the
    matcher scans the events in order from progress 0; an event whose code
    equals [sequence[j]] is appended to the candidate and advances [j],
    and the scan stops with the candidate as soon as [j] reaches k.  A
    successful match therefore returns k events that stand next to each
    other in the stream, in stream order (and so in increasing sample
    order when the stream is), whose codes equal the sequence elementwise;
    the run starts where the scan stood at progress 0, and it is the first
    run the scan completes: on no shorter prefix of the stream does the
    matcher succeed.  It need not be the first run of k events with these
    codes in the stream: that one exists and starts at the returned run or
    before it. *)
Theorem C1_match_is_first_completed_run (sequence : list Z) :
  sequence <> [] ->
  (forall j t e rest,
      nth_error sequence j = Some (code e) ->
      match_loop sequence j t (e :: rest) =
        if Nat.eqb (S j) (length sequence) then Ok (S j, t ++ [e])
        else match_loop sequence (S j) (t ++ [e]) rest) /\
  (forall events cand,
      find_sequence sequence events = Ok cand ->
      exists pre post,
        events = pre ++ cand ++ post /\
        length cand = length sequence /\
        codes cand = sequence /\
        match_loop sequence 0 [] pre = Ok (0, []) /\
        (forall p q, pre ++ cand = p ++ q -> q <> [] ->
                     find_sequence sequence p = Raise InsufficientMatchError) /\
        (StronglySorted (fun a b => (sample a < sample b)%Z) events ->
         StronglySorted (fun a b => (sample a < sample b)%Z) cand) /\
        (exists pre' first post',
            first_run_with_codes sequence events = Some first /\
            events = pre' ++ first ++ post' /\
            codes first = sequence /\
            length pre' <= length pre)).
Proof.
  intros Hne. split.
  - intros j t e rest Hn.
    destruct (Nat.eqb_spec (S j) (length sequence)) as [Heq | Hneq].
    + apply match_loop_break; assumption.
    + apply match_loop_advance; assumption.
  - intros events cand Hfind.
    destruct (find_sequence_first_run sequence events cand Hne Hfind)
      as (pre & post & Hsplit & Hlen & Hcodes & Hpre & Hmin & Hsorted).
    exists pre, post. repeat (split; [assumption |]).
    destruct (first_run_with_codes_found sequence cand post Hcodes pre)
      as (pre' & first & post' & Hrun & Hocc & Hc & Hle).
    exists pre', first, post'. rewrite Hsplit. repeat split; assumption.
Qed.

Lemma C1_match_is_first_completed_run_witness :
  [1; 2; 3]%Z <> [] /\
  find_sequence [1; 2; 3]%Z (stream [5; 1; 9; 2; 1; 2; 3; 4]%Z)
    = Ok (stream_from 4 [1; 2; 3]%Z) /\
  exists pre post,
    stream [5; 1; 9; 2; 1; 2; 3; 4]%Z = pre ++ stream_from 4 [1; 2; 3]%Z ++ post /\
    length (stream_from 4 [1; 2; 3]%Z) = length [1; 2; 3]%Z /\
    codes (stream_from 4 [1; 2; 3]%Z) = [1; 2; 3]%Z /\
    match_loop [1; 2; 3]%Z 0 [] pre = Ok (0, []) /\
    (forall p q, pre ++ stream_from 4 [1; 2; 3]%Z = p ++ q -> q <> [] ->
                 find_sequence [1; 2; 3]%Z p = Raise InsufficientMatchError) /\
    (StronglySorted (fun a b => (sample a < sample b)%Z)
       (stream [5; 1; 9; 2; 1; 2; 3; 4]%Z) ->
     StronglySorted (fun a b => (sample a < sample b)%Z) (stream_from 4 [1; 2; 3]%Z)) /\
    (exists pre' first post',
        first_run_with_codes [1; 2; 3]%Z (stream [5; 1; 9; 2; 1; 2; 3; 4]%Z)
          = Some first /\
        stream [5; 1; 9; 2; 1; 2; 3; 4]%Z = pre' ++ first ++ post' /\
        codes first = [1; 2; 3]%Z /\
        length pre' <= length pre).
Proof.
  split; [discriminate |]. split; [reflexivity |].
  apply (proj2 (C1_match_is_first_completed_run [1; 2; 3]%Z ltac:(discriminate))
           (stream [5; 1; 9; 2; 1; 2; 3; 4]%Z) (stream_from 4 [1; 2; 3]%Z)).
  reflexivity.
Defined.

(** ** A mismatching event only resets *)

(** C2: an event that mismatches [sequence[j]] during a match resets the
    progress to 0 and empties the candidate, and the scan goes on with the
    next event: the mismatching event is not tested against [sequence[0]],
    so the outcome of the whole scan is the outcome of a fresh scan of the
    events after it, and the mismatching event starts no candidate. *)
Theorem C2_mismatch_resets_without_retest
        (sequence : list Z) (j : nat) (t : list event) (e : event)
        (rest : list event) (s : Z) :
  nth_error sequence j = Some s ->
  code e <> s ->
  match_loop sequence j t (e :: rest) = match_loop sequence 0 [] rest /\
  (forall pre,
      match_loop sequence 0 [] pre = Ok (j, t) ->
      find_sequence sequence (pre ++ e :: rest) = find_sequence sequence rest).
Proof.
  intros Hn Hne.
  assert (Hreset : match_loop sequence j t (e :: rest) = match_loop sequence 0 [] rest)
    by (apply match_loop_reset with (s := s); assumption).
  split; [assumption |].
  intros pre Hpre. unfold find_sequence.
  rewrite match_loop_app with (j' := j) (t' := t); [| assumption |].
  - rewrite Hreset. reflexivity.
  - intros ->. assert (length sequence < length sequence); [| lia].
    apply nth_error_Some. congruence.
Qed.

Lemma C2_mismatch_resets_without_retest_witness :
  match_loop [1; 2; 3]%Z 1 (stream [1]%Z) (mk_event 1 0 1 :: stream_from 2 [2; 3]%Z)
    = match_loop [1; 2; 3]%Z 0 [] (stream_from 2 [2; 3]%Z) /\
  find_sequence [1; 2; 3]%Z (stream [1]%Z ++ mk_event 1 0 1 :: stream_from 2 [2; 3]%Z)
    = find_sequence [1; 2; 3]%Z (stream_from 2 [2; 3]%Z).
Proof.
  destruct (C2_mismatch_resets_without_retest [1; 2; 3]%Z 1 (stream [1]%Z)
              (mk_event 1 0 1) (stream_from 2 [2; 3]%Z) 2%Z)
    as [Hstep Hscan].
  - reflexivity.
  - simpl. lia.
  - split; [exact Hstep | apply Hscan; reflexivity].
Defined.

(** The mismatching event may itself carry [sequence[0]]: it is dropped
    all the same, and the stream [1, 1, 2, 3] has no match of [1, 2, 3]. *)
Example mismatching_event_is_not_a_start :
  find_sequence [1; 2; 3]%Z (stream [1; 1; 2; 3]%Z) = Raise InsufficientMatchError.
Proof. reflexivity. Qed.

(** ** The learned stimulus sequence *)

(** The claim as the specification words it, at one recording: the
    pulses 2, 1 and the marker 95 give three events in that order, of
    which the filter keeps the first two; first-seen order would store
    [2, 1], while the pass stores [1, 2]. *)
Lemma C3_sequence_is_not_first_seen_order :
  let data := Demo.spaced_recording [2; 1; 95]%Z in
  let w' := snd (preprocess Demo.env data (Demo.start Demo.fresh)) in
  let retained := [mk_event 2000 0 2; mk_event 4001 0 1] in
  match acquire Demo.env Demo.fresh data with
  | Ok (_, found) =>
      found = [mk_event 2000 0 2; mk_event 4001 0 1; mk_event 6002 0 95] /\
      drop_markers found = retained
  | Raise _ => False
  end /\
  sequence (self w') = [1; 2]%Z /\
  first_seen_order (codes retained) = [2; 1]%Z /\
  sequence (self w') <> first_seen_order (codes retained).
Proof.
  cbv zeta. split; [vm_compute; split; reflexivity |].
  split; [vm_compute; reflexivity |]. split; [reflexivity |].
  vm_compute. discriminate.
Qed.

(** C3 (amended): after a training-mode pass over a recording whose
    events were found, the stimulus sequence is [np.unique] of the codes
    retained by the filter [code < 90]: the distinct retained codes in
    strictly ascending order.  It holds the same codes as the first-seen
    order, not necessarily at the same places. *)
Theorem C3_sequence_is_sorted_distinct_codes
        (E : Env) (w : world E) (data : list (list (score E)))
        (r : raw E) (found : list event) :
  mode (self w) = train_mode ->
  acquire E (self w) data = Ok (r, found) ->
  let learned := sequence (self (snd (preprocess E data w))) in
  learned = np_unique (codes (drop_markers found)) /\
  StronglySorted Z.lt learned /\
  (forall c, In c learned <-> exists e, In e found /\ code e = c /\ (c < 90)%Z) /\
  Permutation learned (first_seen_order (codes (drop_markers found))).
Proof.
  intros Hmode Hacq. cbv zeta.
  rewrite (preprocess_train_run E w data r found Hmode Hacq). cbv zeta.
  destruct (Epochs E r _ _ _ _) as [[X labels] | e]; cbn [snd self with_sequence sequence].
  all: split; [reflexivity |].
  all: split; [apply np_unique_sorted |].
  all: split; [| apply np_unique_first_seen_Permutation].
  all: intros c; rewrite np_unique_In; unfold codes; rewrite in_map_iff; split.
  all: try (intros (e' & He & Hin); apply drop_markers_In in Hin;
            exists e'; repeat split; try tauto; lia).
  all: intros (e' & Hin & He & Hlt); exists e'; split; [assumption |];
    apply drop_markers_In; split; [assumption | lia].
Qed.

Lemma C3_sequence_is_sorted_distinct_codes_witness :
  let data := Demo.spaced_recording [2; 1; 95; 2; 3]%Z in
  let found := [mk_event 2000 0 2; mk_event 4001 0 1; mk_event 6002 0 95;
                mk_event 8003 0 2; mk_event 10004 0 3] in
  let learned := sequence (self (snd (preprocess Demo.env data
                                        (Demo.start Demo.fresh)))) in
  learned = np_unique (codes (drop_markers found)) /\
  StronglySorted Z.lt learned /\
  (forall c, In c learned <->
             exists e, In e found /\ code e = c /\ (c < 90)%Z) /\
  Permutation learned (first_seen_order (codes (drop_markers found))).
Proof.
  refine (C3_sequence_is_sorted_distinct_codes Demo.env (Demo.start Demo.fresh)
            (Demo.spaced_recording [2; 1; 95; 2; 3]%Z) _ _ _ _).
  - reflexivity.
  - vm_compute. reflexivity.
Defined.

(** ** No match *)

(** C4: when the events are exhausted before the sequence is completed
    (the loop is left with progress below the length of the sequence) the
    matcher raises the not-enough-events error, and an inference-mode
    preprocessing pass ends with that error before anything is relabeled
    or handed to [Epochs]; what the matcher returns is never shorter than
    the sequence. *)
Theorem C4_exhausted_stream_raises (sequence : list Z) (events : list event) :
  (forall j t,
      match_loop sequence 0 [] events = Ok (j, t) ->
      j < length sequence ->
      find_sequence sequence events = Raise InsufficientMatchError) /\
  (forall cand,
      find_sequence sequence events = Ok cand -> length cand = length sequence) /\
  (forall (E : Env) (w : world E) data r found j t,
      mode (self w) = predict_mode ->
      Classifier.sequence (self w) = sequence ->
      acquire E (self w) data = Ok (r, found) ->
      drop_markers found = events ->
      match_loop sequence 0 [] events = Ok (j, t) ->
      j < length sequence ->
      preprocess E data w
      = (Raise InsufficientMatchError,
         mk_world (self w)
           (trace w ++ acquire_calls E (self w)
            ++ [Logged DEBUG (FoundEvents (codes events));
                Logged DEBUG (UsingSequence sequence)]))).
Proof.
  split; [| split].
  - intros j t Hrun Hj. eapply find_sequence_running; eassumption.
  - intros cand. apply find_sequence_full.
  - intros E w data r found j t Hmode Hseq Hacq Hev Hrun Hj.
    rewrite (preprocess_predict_run E w data r found Hmode Hacq). cbv zeta.
    rewrite Hseq, Hev.
    rewrite (find_sequence_running sequence events j t Hrun Hj). reflexivity.
Qed.

Lemma C4_exhausted_stream_raises_witness :
  find_sequence [1; 2; 3]%Z (stream [5; 1; 2; 9; 1; 2]%Z) = Raise InsufficientMatchError /\
  fst (preprocess Demo.env (Demo.recording [5; 1; 2; 9; 1; 2]%Z)
         (Demo.start (with_sequence (with_mode Demo.fresh predict_mode) [1; 2; 3]%Z)))
  = Raise InsufficientMatchError.
Proof.
  destruct (C4_exhausted_stream_raises [1; 2; 3]%Z (stream [5; 1; 2; 9; 1; 2]%Z))
    as (Hloop & _ & Hpass).
  split.
  - apply (Hloop 2 (stream_from 4 [1; 2]%Z)); [reflexivity | simpl; lia].
  - rewrite (Hpass Demo.env
               (Demo.start (with_sequence (with_mode Demo.fresh predict_mode) [1; 2; 3]%Z))
               (Demo.recording [5; 1; 2; 9; 1; 2]%Z) [5; 1; 2; 9; 1; 2]%Z
               (Demo.events_of_trigger 0 [5; 1; 2; 9; 1; 2]%Z) 2 (stream_from 4 [1; 2]%Z));
      try reflexivity.
    simpl. lia.
Defined.

(** A stream in which the codes of the sequence nowhere stand next to
    each other has no match. *)
Corollary find_sequence_absent (sequence : list Z) (events : list event) :
  sequence <> [] ->
  (forall l1 l2, codes events <> l1 ++ sequence ++ l2) ->
  find_sequence sequence events = Raise InsufficientMatchError.
Proof.
  intros Hne Habs.
  destruct (find_sequence_outcome sequence events Hne) as [H | [cand [H _]]];
    [assumption |].
  destruct (find_sequence_first_run sequence events cand Hne H)
    as (pre & post & Hev & _ & Hc & _).
  exfalso. apply (Habs (codes pre) (codes post)).
  rewrite Hev. unfold codes in *. rewrite !map_app, Hc. reflexivity.
Qed.

(** ** Target and non-target labels *)

(** The claim as the specification words it fails where no retained
    event carries the training class (the label set is then the sentinel
    alone), and its count fails when the training class is the sentinel
    itself. *)
Lemma C5_label_set_is_not_always_both :
  ~ (forall l, In l (codes (relabel 1 (stream [2; 2]%Z))) <-> l = 1%Z \/ l = non_target) /\
  count_code 3 (relabel 3 (stream [3; 5]%Z))
  + count_code non_target (relabel 3 (stream [3; 5]%Z))
  <> length (stream [3; 5]%Z).
Proof.
  split.
  - intros H. destruct (proj2 (H 1%Z)) as [Heq | [Heq | []]].
    + now left.
    + discriminate Heq.
    + discriminate Heq.
  - vm_compute. discriminate.
Qed.

(** C5 (amended): after relabeling with training class [c] every label
    is [c] or the sentinel 3, and both values occur exactly when some
    retained event carries [c] and some other does not; events whose code
    equals [c] are kept as they are and all others get the sentinel, so
    that, for [c] other than the sentinel, the [c]-labeled and the
    sentinel-labeled events together count all retained events. *)
Theorem C5_relabel_is_binary (c : Z) (events : list event) :
  (forall l, In l (codes (relabel c events)) -> l = c \/ l = non_target) /\
  ((exists e, In e events /\ code e = c) ->
   (exists e, In e events /\ code e <> c) ->
   forall l, In l (codes (relabel c events)) <-> l = c \/ l = non_target) /\
  (c <> non_target ->
   count_code c (relabel c events) + count_code non_target (relabel c events)
   = length events) /\
  length (relabel c events) = length events /\
  (forall i e,
      nth_error events i = Some e ->
      nth_error (relabel c events) i =
        Some (if (code e =? c)%Z then e else set_code e non_target)).
Proof.
  split; [| split; [| split; [| split]]].
  - intros l Hl. apply relabel_codes_In in Hl. tauto.
  - intros Hc Hn l. rewrite relabel_codes_In. tauto.
  - apply relabel_counts.
  - apply relabel_length.
  - apply relabel_nth_error.
Qed.

Lemma C5_relabel_is_binary_witness :
  (forall l, In l (codes (relabel 1 (stream [1; 2; 3; 1]%Z))) <-> l = 1%Z \/ l = non_target) /\
  count_code 1 (relabel 1 (stream [1; 2; 3; 1]%Z))
  + count_code non_target (relabel 1 (stream [1; 2; 3; 1]%Z))
  = length (stream [1; 2; 3; 1]%Z).
Proof.
  destruct (C5_relabel_is_binary 1 (stream [1; 2; 3; 1]%Z)) as (_ & Hboth & Hcount & _).
  split.
  - apply Hboth.
    + exists (mk_event 0 0 1). split; [simpl; tauto | reflexivity].
    + exists (mk_event 1 0 2). split; [simpl; tauto | simpl; lia].
  - apply Hcount. unfold non_target. lia.
Defined.

(** ** Cross-validation inside [train] *)




(** ** The error boundary of [predict] *)

(** The claim as the specification words it, at a classifier switched to
    inference before any training: its sequence is empty, indexing it
    raises an [IndexError], which is not the not-enough-events error, and
    [predict] returns [None] all the same instead of letting it through. *)
Lemma C7_other_preprocessing_errors_are_caught :
  let w := Demo.start (with_mode Demo.fresh predict_mode) in
  let data := Demo.recording [0; 2; 0; 1; 3; 95]%Z in
  fst (preprocess Demo.env data w) = Raise (IndexError "index out of range") /\
  IndexError "index out of range" <> InsufficientMatchError /\
  fst (predict Demo.env data false false w) = Ok NoResult.
Proof.
  cbv zeta. split; [reflexivity |]. split; [discriminate | reflexivity].
Qed.

(** C7 (amended): [predict] catches every exception raised by the
    preprocessing pass, the not-enough-events error of the matcher among
    them: it logs the exception as an error and returns no result.  An
    exception raised after preprocessing (by the reshape, by the scaler,
    which is absent before training, or by the model or the grouping) is
    not handled and reaches the caller. *)
Theorem C7_predict_error_boundary
        (E : Env) (w : world E) (data : list (list (score E))) (proba group : bool) :
  (forall e w1,
      preprocess E data w = (Raise e, w1) ->
      predict E data proba group w
      = (Ok NoResult,
         mk_world (self w1) (trace w1 ++ [Logged ERROR (PreprocessError e)]))) /\
  (forall X labels w1,
      preprocess E data w = (Ok (X, labels), w1) ->
      (forall e, reshape_rows X = Raise e ->
                 predict E data proba group w = (Raise e, w1)) /\
      (forall Xr, reshape_rows X = Ok Xr ->
         (scaler_ (self w1) = None ->
          predict E data proba group w
          = (Raise (AttributeError "'NoneType' object has no attribute 'transform'"),
             w1)) /\
         (forall e w2, scaler_transform E Xr w1 = (Raise e, w2) ->
                       predict E data proba group w = (Raise e, w2)) /\
         (forall Xs w2, scaler_transform E Xr w1 = (Ok Xs, w2) ->
            forall e w3,
              (group = false -> proba = false ->
               predict_class E Xs w2 = (Raise e, w3) ->
               predict E data proba group w = (Raise e, w3)) /\
              (group = false -> proba = true ->
               predict_probabilities E Xs w2 = (Raise e, w3) ->
               predict E data proba group w = (Raise e, w3)) /\
              (group = true ->
               group_predictions E Xs proba w2 = (Raise e, w3) ->
               predict E data proba group w = (Raise e, w3))))).
Proof.
  split.
  - intros e w1 Hprep. apply predict_preprocess_raises, Hprep.
  - intros X labels w1 Hprep.
    pose proof (predict_preprocess_returns E w w1 data proba group X labels Hprep) as Hrun.
    split.
    + intros e He. rewrite Hrun, He. reflexivity.
    + intros Xr HXr. rewrite HXr in Hrun. split; [| split].
      * intros Hnone. rewrite Hrun. unfold scaler_transform.
        unfold Classifier.pbind, Classifier.get_self. rewrite Hnone. reflexivity.
      * intros e w2 Hsc. rewrite Hrun, Hsc. reflexivity.
      * intros Xs w2 Hsc e w3. rewrite Hsc in Hrun. repeat split.
        -- intros -> -> Hp. rewrite Hrun. cbn [negb]. rewrite Hp. reflexivity.
        -- intros -> -> Hp. rewrite Hrun. cbn [negb]. rewrite Hp. reflexivity.
        -- intros -> Hp. rewrite Hrun. cbn [negb]. rewrite Hp. reflexivity.
Qed.

Lemma C7_predict_error_boundary_witness :
  (exists w',
      predict Demo.env (Demo.recording [5; 1; 2; 9; 1; 2]%Z) false false
        (Demo.start (with_sequence (with_mode Demo.fresh predict_mode) [1; 2; 3]%Z))
      = (Ok NoResult, w') /\
      last (trace w') Called_find_events
      = Logged ERROR (PreprocessError InsufficientMatchError)) /\
  (exists w',
      predict Demo.env (Demo.recording [5; 1; 2; 3]%Z) false false
        (Demo.start (with_sequence (with_mode Demo.fresh predict_mode) [1; 2; 3]%Z))
      = (Raise (AttributeError "'NoneType' object has no attribute 'transform'"), w')).
Proof.
  split.
  - eexists. split.
    + eapply (proj1 (C7_predict_error_boundary Demo.env _ _ false false)).
      lazy. reflexivity.
    + reflexivity.
  - destruct (C7_predict_error_boundary Demo.env
                (Demo.start (with_sequence (with_mode Demo.fresh predict_mode) [1; 2; 3]%Z))
                (Demo.recording [5; 1; 2; 3]%Z) false false) as [_ Hafter].
    edestruct Hafter as [_ Hreshaped]; [lazy; reflexivity |].
    edestruct Hreshaped as [Hnone _]; [lazy; reflexivity |].
    eexists. apply Hnone. reflexivity.
Defined.

(** ** Grouped predictions *)

(** C8: [group_predictions] does not normalize the probabilities of the
    positive class.  A classifier as [__init__] leaves it, trained on the
    pulses 1, 2, 3 shown ten times, fits its model on the encoded labels,
    in which the target label 1 is class 0 and the non-target label 3 is
    class 1; these are the classes of which [plot_roc_curve] names 0 as
    [pos_label].  Take three epochs whose class probabilities are, in
    tenths, [9, 1], [2, 8] and [3, 7]: the probabilities of the positive
    class are 9, 2 and 3, largest at the first stimulus.
    [group_predictions] hands column 1 to [normalize], the probabilities
    1, 8 and 7 of the non-target class, and decides class 2. *)
Lemma C8_group_predictions_reads_non_target_column :
  let data := Demo.spaced_recording (concat (repeat [1; 2; 3]%Z 10)) in
  let run := train Demo.env data tt false 32 (Demo.start Demo.fresh) in
  let trained := self (snd run) in
  let labels := concat (repeat [1; 3; 3]%Z 10) in
  let X := [[1]; [8]; [7]]%Z in
  let rows := [[9; 1]; [2; 8]; [3; 7]]%Z in
  let grouped := group_predictions Demo.env X true (mk_world trained []) in
  fst run = Ok tt /\
  (exists epochs,
      fst (preprocess Demo.env data (Demo.start Demo.fresh)) = Ok (epochs, labels)) /\
  training_class trained = 1%Z /\
  sequence trained = [1; 2; 3]%Z /\
  prep_Y trained = Some (label_encode labels) /\
  class_column labels (training_class trained) = 0 /\
  class_column labels non_target = 1 /\
  model_predict_proba Demo.env (model_ trained) X = Ok rows /\
  column (class_column labels (training_class trained)) rows = Ok [9; 2; 3]%Z /\
  argmax Z.ltb [9; 2; 3]%Z = Ok 0 /\
  column (class_column labels non_target) rows = Ok [1; 8; 7]%Z /\
  column1 rows = Ok [1; 8; 7]%Z /\
  trace (snd grouped)
  = [Called_predict_proba (E := Demo.env) X;
     Called_normalize (E := Demo.env) [1; 8; 7]%Z softmax] /\
  fst grouped
  = Ok [("class"%string, VInt 2); ("1"%string, VScore (E := Demo.env) 1%Z);
        ("2"%string, VScore (E := Demo.env) 8%Z);
        ("3"%string, VScore (E := Demo.env) 7%Z)].
Proof.
  cbv zeta. split; [vm_compute; reflexivity |].
  split; [eexists; vm_compute; reflexivity |].
  repeat split; vm_compute; reflexivity.
Qed.

(** ** Oversampling inside [train] *)

(** C9: in a training call that runs to its end, the oversampler, set
    to resample the minority class, is handed the training partition of
    the split and nothing else, and only when [oversample] is set; the
    scaler and the model are fitted on what it returns; the held-out
    evaluation is made on the test partition exactly as the split returned
    it, whether or not oversampling took place. *)
Theorem C9_oversampling_leaves_test_partition
        (E : Env) (w w1 : world E) (data : list (list (score E))) (sc sc' : scaler E)
        (oversample : bool) (seed : Z)
        (prep_data : list (list (list (score E)))) (labels : list Z)
        (X X_train X_test X_res X_scaled X_test' : list (list (score E)))
        (y_train y_test y_res y_pred : list Z)
        (cv_accuracy cv_f1 : list (score E)) (fitted : model E) (f1 : score E) :
  preprocess E data w = (Ok (prep_data, labels), w1) ->
  reshape_rows prep_data = Ok X ->
  let y := label_encode labels in
  train_test_split E X y seed = Ok (X_train, X_test, y_train, y_test) ->
  (if oversample then fit_resample E minority seed X_train y_train
   else Ok (X_train, y_train)) = Ok (X_res, y_res) ->
  fit_transform E sc X_res = Ok (sc', X_scaled) ->
  let n := cv_splits (self w1) in
  let m := model_ (self w1) in
  cross_val_score E m X y n random_state accuracy_scoring = Ok cv_accuracy ->
  cross_val_score E m X y n random_state weighted_f1_scoring = Ok cv_f1 ->
  fit E m X_scaled y_res = Ok fitted ->
  transform E sc' X_test = Ok X_test' ->
  model_predict E fitted X_test' = Ok y_pred ->
  f1_score E y_test y_pred = Ok f1 ->
  train E data sc oversample seed w
  = (Ok tt,
     mk_world
       (with_model (with_scaler (with_prep (self w1) X y) sc') fitted)
       (trace w1
        ++ [Logged DEBUG (EncodedLabels y); Called_train_test_split X y seed]
        ++ (if oversample then [Called_fit_resample minority seed X_train y_train]
            else [])
        ++ [Logged INFO (TrainingShape (length X_res) (length y_res));
            Called_fit_transform X_res;
            Called_cross_val_score X y n accuracy_scoring;
            Called_cross_val_score X y n weighted_f1_scoring;
            Logged INFO (CVAccuracy cv_accuracy);
            Logged INFO (CVF1 cv_f1);
            Called_fit X_scaled y_res;
            Called_transform X_test;
            Called_predict X_test';
            Called_f1_score y_test y_pred;
            Logged INFO (EvalAccuracy (mean_equal E y_pred y_test));
            Logged INFO (EvalF1 f1)])).
Proof.
  intros Hprep HX y Hsplit Hres Hscale n m Hacc Hf1 Hfit Htr Hpred Hscore.
  pose proof (train_run E w w1 data sc sc' oversample seed prep_data labels
                X X_train X_test X_res X_scaled y_train y_test y_res
                Hprep HX Hsplit Hres Hscale) as Hrun.
  cbv zeta in Hrun. fold y n m in Hrun.
  rewrite Hrun, Hacc, Hf1, Hfit.
  rewrite evaluate_run with (sc := sc') by reflexivity.
  cbn [self model_ with_model trace]. rewrite Htr, Hpred, Hscore.
  destruct oversample; cbn; repeat rewrite <- app_assoc; reflexivity.
Qed.

Lemma C9_oversampling_leaves_test_partition_witness :
  exists w',
    train Demo.env (Demo.recording [1; 2; 3; 1; 2; 3; 1; 2; 3; 1; 2]%Z) tt true 32
      (Demo.start Demo.two_fold) = (Ok tt, w') /\
    In (Called_fit_resample (E := Demo.env) minority 32
          [[2]; [3]; [4]; [5]; [6]; [7]; [8]; [9]; [10]]%Z
          [1; 0; 1; 1; 0; 1; 1; 0; 1]%Z) (trace w') /\
    In (Called_transform (E := Demo.env) [[0]; [1]]%Z) (trace w') /\
    In (Called_f1_score (E := Demo.env) [0; 1]%Z [0; 0]%Z) (trace w').
Proof.
  eexists. split.
  - eapply (C9_oversampling_leaves_test_partition Demo.env (Demo.start Demo.two_fold) _
              (Demo.recording [1; 2; 3; 1; 2; 3; 1; 2; 3; 1; 2]%Z) tt tt true 32);
      lazy; reflexivity.
  - cbn. tauto.
Defined.

(** ** Codes below 90 *)

(** C10: after a training-mode pass over a recording whose events were
    found every code of the stimulus sequence is below 90, and the events
    that an inference-mode pass matches (and logs as matched) all have a
    code below 90: events with code 90 or more are dropped before either
    step. *)
Theorem C10_codes_below_90
        (E : Env) (w : world E) (data : list (list (score E)))
        (r : raw E) (found : list event) :
  acquire E (self w) data = Ok (r, found) ->
  (mode (self w) = train_mode ->
   Forall (fun c => (c < 90)%Z) (sequence (self (snd (preprocess E data w))))) /\
  (mode (self w) = predict_mode ->
   forall trial,
     find_sequence (sequence (self w)) (drop_markers found) = Ok trial ->
     In (Logged INFO (FoundMatching trial)) (trace (snd (preprocess E data w))) /\
     Forall (fun e => (code e < 90)%Z) trial).
Proof.
  intros Hacq. split; intros Hmode.
  - rewrite (preprocess_train_run E w data r found Hmode Hacq). cbv zeta.
    assert (Hall : Forall (fun c => (c < 90)%Z) (np_unique (codes (drop_markers found)))).
    { apply Forall_forall. intros c Hc. rewrite np_unique_In in Hc.
      unfold codes in Hc. rewrite in_map_iff in Hc. destruct Hc as (e & <- & He).
      apply drop_markers_In in He. tauto. }
    destruct (Epochs E r _ _ _ _) as [[X labels] | e]; exact Hall.
  - intros trial Hfind. split.
    + rewrite (preprocess_predict_run E w data r found Hmode Hacq). cbv zeta.
      rewrite Hfind.
      destruct (relabel_column _ _) as [relabeled | e]; cbn [snd trace].
      * destruct (Epochs E r _ _ _ _) as [[X labels] | e]; cbn [snd trace];
          repeat rewrite in_app_iff; simpl; tauto.
      * repeat rewrite in_app_iff; simpl; tauto.
    + apply Forall_forall. intros e He.
      apply (find_sequence_incl _ _ _ Hfind) in He.
      apply drop_markers_In in He. tauto.
Qed.

Lemma C10_codes_below_90_witness :
  Forall (fun c => (c < 90)%Z)
    (sequence (self (snd (preprocess Demo.env (Demo.recording [2; 1; 95; 2; 3]%Z)
                            (Demo.start Demo.fresh))))) /\
  Forall (fun e => (code e < 90)%Z) (stream_from 3 [1; 2]%Z).
Proof.
  split.
  - apply (proj1 (C10_codes_below_90 Demo.env (Demo.start Demo.fresh)
                    (Demo.recording [2; 1; 95; 2; 3]%Z) [2; 1; 95; 2; 3]%Z
                    (Demo.events_of_trigger 0 [2; 1; 95; 2; 3]%Z) eq_refl)).
    reflexivity.
  - apply (proj2 (C10_codes_below_90 Demo.env
                    (Demo.start (with_sequence (with_mode Demo.fresh predict_mode) [1; 2]%Z))
                    (Demo.recording [1; 95; 5; 1; 2]%Z) [1; 95; 5; 1; 2]%Z
                    (Demo.events_of_trigger 0 [1; 95; 5; 1; 2]%Z) eq_refl)).
    + reflexivity.
    + reflexivity.
Defined.

(** * Further properties of the code *)

(** Splits on every call result and branch of a method body, innermost
    first. *)
Ltac crush_prog :=
  repeat (cbn;
          match goal with
          | |- context [match ?x with _ => _ end] =>
              lazymatch x with
              | context [match _ with _ => _ end] => fail
              | _ => destruct x eqn:?
              end
          end).

(** ** The matcher on a clean lead-in *)

(** Events that do not carry the first code of the sequence leave the
    scan at progress 0. *)
Lemma match_loop_idle (sequence : list Z) (s0 : Z) (pre : list event) :
  nth_error sequence 0 = Some s0 ->
  Forall (fun e => code e <> s0) pre ->
  match_loop sequence 0 [] pre = Ok (0, []).
Proof.
  intros Hs0. induction 1 as [| e pre He Hpre IH]; [reflexivity |].
  rewrite match_loop_reset with (s := s0); assumption.
Qed.

(** X1: when the codes of the sequence stand next to each other in the
    stream and no earlier event carries the first code of the sequence,
    the matcher returns exactly that occurrence. *)
Theorem X1_match_after_clean_lead_in
        (sequence : list Z) (s0 : Z) (pre cand post : list event) :
  nth_error sequence 0 = Some s0 ->
  Forall (fun e => code e <> s0) pre ->
  codes cand = sequence ->
  find_sequence sequence (pre ++ cand ++ post) = Ok cand.
Proof.
  intros Hs0 Hpre Hc.
  assert (Hne : sequence <> []) by (intros ->; discriminate Hs0).
  assert (Hpos : 0 < length sequence) by (destruct sequence; simpl; [congruence | lia]).
  unfold find_sequence.
  rewrite match_loop_app with (j' := 0) (t' := []);
    [| apply match_loop_idle with (s0 := s0); assumption | lia].
  rewrite match_loop_complete by assumption. simpl.
  replace (length cand) with (length sequence)
    by (rewrite <- Hc; unfold codes; now rewrite length_map).
  rewrite Nat.ltb_irrefl. reflexivity.
Qed.

Lemma X1_match_after_clean_lead_in_witness :
  find_sequence [1; 2; 3]%Z
    (stream [5; 9; 2]%Z ++ stream_from 3 [1; 2; 3]%Z ++ stream_from 6 [1; 1]%Z)
  = Ok (stream_from 3 [1; 2; 3]%Z).
Proof.
  apply (X1_match_after_clean_lead_in [1; 2; 3]%Z 1%Z).
  - reflexivity.
  - repeat constructor; simpl; lia.
  - reflexivity.
Defined.

(** ** Matching with a learned sequence *)

(** X2: a sequence stored by a training pass is [np.unique] of some
    codes; whatever an inference pass matches against it has strictly
    increasing, hence pairwise distinct, codes. *)
Theorem X2_match_of_learned_sequence_ascends
        (training_codes : list Z) (events cand : list event) :
  find_sequence (np_unique training_codes) events = Ok cand ->
  StronglySorted Z.lt (codes cand) /\ NoDup (codes cand).
Proof.
  intros Hfind.
  assert (Hs : StronglySorted Z.lt (codes cand)).
  { destruct (np_unique training_codes) as [| s sq] eqn:Hsq.
    - apply find_sequence_full in Hfind. destruct cand; [constructor | discriminate].
    - destruct (find_sequence_first_run (s :: sq) events cand) as (pre & post & _ & _ & Hc & _);
        [discriminate | assumption |].
      rewrite Hc, <- Hsq. apply np_unique_sorted. }
  split; [assumption | apply StronglySorted_lt_NoDup, Hs].
Qed.

Lemma X2_match_of_learned_sequence_ascends_witness :
  StronglySorted Z.lt (codes (stream_from 3 [1; 2; 3]%Z)) /\
  NoDup (codes (stream_from 3 [1; 2; 3]%Z)).
Proof.
  apply (X2_match_of_learned_sequence_ascends [3; 1; 2; 1]%Z
           (stream [5; 9; 2; 1; 2; 3; 1]%Z)).
  reflexivity.
Defined.

(** ** What inference leaves untouched *)

Section ReadOnly.

Context (E : Env).

Lemma scaler_transform_self (X : list (list (score E))) (w : world E) :
  self (snd (scaler_transform E X w)) = self w.
Proof.
  unfold scaler_transform. unfold_prog. cbn.
  destruct (scaler_ (self w)) as [sc |]; cbn; [| reflexivity].
  destruct (transform E sc X); reflexivity.
Qed.

Lemma predict_class_self (X : list (list (score E))) (w : world E) :
  self (snd (predict_class E X w)) = self w.
Proof.
  unfold predict_class. unfold_prog. cbn.
  destruct (model_predict E (model_ (self w)) X); reflexivity.
Qed.

Lemma predict_probabilities_self (X : list (list (score E))) (w : world E) :
  self (snd (predict_probabilities E X w)) = self w.
Proof.
  unfold predict_probabilities. unfold_prog. cbn.
  destruct (model_predict_proba E (model_ (self w)) X); reflexivity.
Qed.

Lemma group_predictions_self (X : list (list (score E))) (proba : bool) (w : world E) :
  self (snd (group_predictions E X proba w)) = self w.
Proof.
  unfold group_predictions, predict_probabilities, predict_class. unfold_prog.
  destruct proba; cbn.
  - destruct (model_predict_proba E (model_ (self w)) X) as [rows | e]; cbn; [| reflexivity].
    destruct (column1 rows) as [p | e]; cbn; [| reflexivity].
    destruct (normalize E p softmax) as [q | e]; cbn; [| reflexivity].
    crush_prog; reflexivity.
  - destruct (model_predict E (model_ (self w)) X) as [y | e]; cbn; [| reflexivity].
    crush_prog; reflexivity.
Qed.

(** An inference-mode preprocessing pass assigns no attribute. *)
Lemma preprocess_predict_self (data : list (list (score E))) (w : world E) :
  mode (self w) = predict_mode ->
  self (snd (preprocess E data w)) = self w.
Proof.
  intros Hmode. unfold preprocess. unfold_prog. cbn. rewrite Hmode.
  crush_prog; reflexivity.
Qed.

(** Whatever a preprocessing pass does, it leaves the mode alone. *)
Lemma preprocess_mode (data : list (list (score E))) (w : world E) :
  mode (self (snd (preprocess E data w))) = mode (self w).
Proof.
  unfold preprocess. unfold_prog. cbn.
  crush_prog; cbn; congruence.
Qed.

End ReadOnly.

Section PredictState.

Context (E : Env).

(** [predict] changes the classifier only through its preprocessing
    pass. *)
Lemma predict_self (data : list (list (score E))) (proba group : bool) (w : world E) :
  self (snd (predict E data proba group w)) = self (snd (preprocess E data w)).
Proof.
  destruct (preprocess E data w) as [[[X labels] | e] w1] eqn:Hprep.
  - rewrite (predict_preprocess_returns E w w1 data proba group X labels Hprep).
    cbn [snd].
    destruct (reshape_rows X) as [Xr | e]; [| reflexivity].
    pose proof (scaler_transform_self E Xr w1) as Hsc.
    destruct (scaler_transform E Xr w1) as [[Xs | e] w2]; cbn [snd] in *; [| assumption].
    rewrite <- Hsc.
    destruct group, proba; cbn [negb].
    + pose proof (group_predictions_self E Xs true w2) as H.
      destruct (group_predictions E Xs true w2) as [[d | e] w3]; exact H.
    + pose proof (group_predictions_self E Xs false w2) as H.
      destruct (group_predictions E Xs false w2) as [[d | e] w3]; exact H.
    + pose proof (predict_probabilities_self E Xs w2) as H.
      destruct (predict_probabilities E Xs w2) as [[p | e] w3]; exact H.
    + pose proof (predict_class_self E Xs w2) as H.
      destruct (predict_class E Xs w2) as [[y | e] w3]; exact H.
  - rewrite (predict_preprocess_raises E w w1 data proba group e Hprep). reflexivity.
Qed.

(** A pass whose acquisition raises ends there. *)
Lemma preprocess_acquire_raises (data : list (list (score E))) (w : world E) (e : exn) :
  acquire E (self w) data = Raise e ->
  exists tr,
    preprocess E data w = (Raise e, mk_world (self w) (trace w ++ tr)) /\
    forallb (before_epochs E) tr = true.
Proof.
  destruct w as [c tr0]. cbn [self trace]. intros Hacq.
  unfold acquire, Exn.bind in Hacq. unfold preprocess. unfold_prog. cbn.
  destruct (layouts E (board_id c)) as [[start_eeg end_eeg] | e0]; cbn.
  2: { inversion Hacq; subst. exists []. rewrite app_nil_r. split; reflexivity. }
  destruct (last_row data) as [trigger | e0]; cbn.
  2: { inversion Hacq; subst. exists []. rewrite app_nil_r. split; reflexivity. }
  destruct (convert_to_mne E _ trigger (fs c) (chs c)) as [raw0 | e0]; cbn.
  2: { inversion Hacq; subst. exists [Called_convert_to_mne]. split; reflexivity. }
  destruct (ENOPHONE_BOARD E =? board_id c)%Z; cbn.
  - destruct (set_eeg_reference E raw0 _) as [raw1 | e0]; cbn.
    2: { inversion Hacq; subst.
         exists [Called_convert_to_mne; Called_set_eeg_reference].
         rewrite <- app_assoc. split; reflexivity. }
    destruct (find_events E raw1) as [found | e0]; cbn; inversion Hacq; subst.
    exists [Called_convert_to_mne; Called_set_eeg_reference; Called_find_events].
    repeat rewrite <- app_assoc. split; reflexivity.
  - destruct (find_events E raw0) as [found | e0]; cbn; inversion Hacq; subst.
    exists [Called_convert_to_mne; Called_find_events].
    repeat rewrite <- app_assoc. split; reflexivity.
Qed.

Lemma acquire_calls_before_epochs (c : classifier E) :
  forallb (before_epochs E) (acquire_calls E c) = true.
Proof.
  unfold acquire_calls. destruct (ENOPHONE_BOARD E =? board_id c)%Z; reflexivity.
Qed.

(** In inference mode an empty stimulus sequence makes every pass raise
    before [Epochs]: indexing the sequence fails at the first retained
    event, and without retained events the empty match has no column to
    relabel. *)
Lemma preprocess_untrained_raises (data : list (list (score E))) (w : world E) :
  mode (self w) = predict_mode ->
  sequence (self w) = [] ->
  exists e tr,
    preprocess E data w = (Raise e, mk_world (self w) (trace w ++ tr)) /\
    forallb (before_epochs E) tr = true.
Proof.
  intros Hmode Hseq.
  destruct (acquire E (self w) data) as [[r found] | e] eqn:Hacq.
  - rewrite (preprocess_predict_run E w data r found Hmode Hacq). cbv zeta.
    rewrite Hseq.
    destruct (find_sequence [] (drop_markers found)) as [trial | e] eqn:Hfind.
    + apply find_sequence_full in Hfind. destruct trial; [| discriminate Hfind].
      cbn [np_array relabel_column].
      eexists. eexists. split.
      * rewrite <- app_assoc. reflexivity.
      * rewrite forallb_app, forallb_app, acquire_calls_before_epochs. reflexivity.
    + eexists. eexists. split; [reflexivity |].
      rewrite forallb_app, acquire_calls_before_epochs. reflexivity.
  - destruct (preprocess_acquire_raises data w e Hacq) as (tr & Hrun & Htr).
    exists e, tr. split; assumption.
Qed.

End PredictState.

(** X3: in inference mode neither a preprocessing pass nor [predict]
    assigns any attribute of the classifier, whatever the recording and
    whatever the collaborators return or raise: the stimulus sequence, the
    model, the scaler and the mode are as before the call. *)
Theorem X3_inference_is_read_only
        (E : Env) (w : world E) (data : list (list (score E))) (proba group : bool) :
  mode (self w) = predict_mode ->
  self (snd (preprocess E data w)) = self w /\
  self (snd (predict E data proba group w)) = self w.
Proof.
  intros Hmode.
  pose proof (preprocess_predict_self E data w Hmode) as Hpre.
  split; [assumption |]. rewrite predict_self. assumption.
Qed.

Lemma X3_inference_is_read_only_witness :
  let c := with_scaler (with_sequence (with_mode Demo.fresh predict_mode) [1; 2; 3]%Z) tt in
  self (snd (preprocess Demo.env (Demo.recording [5; 1; 2; 3; 4]%Z) (Demo.start c))) = c /\
  self (snd (predict Demo.env (Demo.recording [5; 1; 2; 3; 4]%Z) true true (Demo.start c)))
  = c.
Proof.
  cbv zeta.
  apply (X3_inference_is_read_only Demo.env
           (Demo.start (with_scaler
                          (with_sequence (with_mode Demo.fresh predict_mode) [1; 2; 3]%Z) tt))
           (Demo.recording [5; 1; 2; 3; 4]%Z) true true).
  reflexivity.
Defined.

(** X4: in inference mode a classifier whose stimulus sequence is empty
    (one that was never trained) gets [None] from every [predict] call:
    the preprocessing pass always raises, [predict] logs that exception
    as an error, and neither [Epochs] nor the scaler nor the model is
    called. *)
Theorem X4_untrained_predict_returns_none
        (E : Env) (w : world E) (data : list (list (score E))) (proba group : bool) :
  mode (self w) = predict_mode ->
  sequence (self w) = [] ->
  exists e tr,
    predict E data proba group w
    = (Ok NoResult,
       mk_world (self w) (trace w ++ tr ++ [Logged ERROR (PreprocessError e)])) /\
    forallb (before_epochs E) tr = true.
Proof.
  intros Hmode Hseq.
  destruct (preprocess_untrained_raises E data w Hmode Hseq) as (e & tr & Hrun & Htr).
  exists e, tr. split; [| assumption].
  rewrite (predict_preprocess_raises E w _ data proba group e Hrun).
  cbn [self trace]. rewrite <- app_assoc. reflexivity.
Qed.

Lemma X4_untrained_predict_returns_none_witness :
  exists e tr,
    predict Demo.env (Demo.recording [5; 1; 2; 3; 4]%Z) false false
      (Demo.start (with_mode Demo.fresh predict_mode))
    = (Ok NoResult,
       mk_world (with_mode Demo.fresh predict_mode)
         ([] ++ tr ++ [Logged ERROR (PreprocessError e)])) /\
    forallb (before_epochs Demo.env) tr = true.
Proof.
  apply (X4_untrained_predict_returns_none Demo.env
           (Demo.start (with_mode Demo.fresh predict_mode))
           (Demo.recording [5; 1; 2; 3; 4]%Z) false false).
  - reflexivity.
  - reflexivity.
Defined.

(** X5: [predict] called while the classifier is still in training mode
    runs the training branch of the preprocessing pass: once the events of
    the recording are found, the stored stimulus sequence is replaced by
    the sorted distinct retained codes of the recording to predict,
    whatever happens afterwards. *)
Theorem X5_predict_in_training_mode_relearns
        (E : Env) (w : world E) (data : list (list (score E))) (proba group : bool)
        (r : raw E) (found : list event) :
  mode (self w) = train_mode ->
  acquire E (self w) data = Ok (r, found) ->
  sequence (self (snd (predict E data proba group w)))
  = np_unique (codes (drop_markers found)).
Proof.
  intros Hmode Hacq. rewrite predict_self.
  rewrite (preprocess_train_run E w data r found Hmode Hacq). cbv zeta.
  destruct (Epochs E r _ _ _ _) as [[X labels] | e]; reflexivity.
Qed.

Lemma X5_predict_in_training_mode_relearns_witness :
  sequence (self (snd (predict Demo.env (Demo.recording [7; 5; 7]%Z) false false
                         (Demo.start (with_sequence Demo.fresh [1; 2; 3]%Z)))))
  = [5; 7]%Z.
Proof.
  apply (X5_predict_in_training_mode_relearns Demo.env
           (Demo.start (with_sequence Demo.fresh [1; 2; 3]%Z))
           (Demo.recording [7; 5; 7]%Z) false false [7; 5; 7]%Z
           (Demo.events_of_trigger 0 [7; 5; 7]%Z)).
  - reflexivity.
  - reflexivity.
Defined.

(** ** The events of an inference pass *)

Lemma relabel_samples (c : Z) (events : list event) :
  map sample (relabel c events) = map sample events.
Proof.
  unfold relabel. rewrite map_map. apply map_ext.
  intros e. destruct (code e =? c)%Z; reflexivity.
Qed.

(** X6: an inference-mode preprocessing pass that returns has epoched
    exactly as many events as the stimulus sequence has codes: the events
    the matcher returned, taken from the retained events of the recording,
    at their own sample positions, with their codes relabeled. *)
Theorem X6_inference_epochs_the_match
        (E : Env) (w w1 : world E) (data : list (list (score E)))
        (r : raw E) (found : list event)
        (X : list (list (list (score E)))) (labels : list Z) :
  mode (self w) = predict_mode ->
  acquire E (self w) data = Ok (r, found) ->
  preprocess E data w = (Ok (X, labels), w1) ->
  exists trial,
    find_sequence (sequence (self w)) (drop_markers found) = Ok trial /\
    incl trial (drop_markers found) /\
    length trial = length (sequence (self w)) /\
    map sample (relabel (training_class (self w)) trial) = map sample trial /\
    Epochs E r (relabel (training_class (self w)) trial) event_id
      (epoch_start (self w)) (epoch_end (self w)) = Ok (X, labels) /\
    In (Called_Epochs (relabel (training_class (self w)) trial)) (trace w1).
Proof.
  intros Hmode Hacq Hrun.
  rewrite (preprocess_predict_run E w data r found Hmode Hacq) in Hrun. cbv zeta in Hrun.
  destruct (find_sequence (sequence (self w)) (drop_markers found)) as [trial | e] eqn:Hfind;
    [| discriminate Hrun].
  exists trial. split; [reflexivity |].
  split; [apply (find_sequence_incl _ _ _ Hfind) |].
  split; [apply (find_sequence_full _ _ _ Hfind) |].
  split; [apply relabel_samples |].
  destruct trial as [| e0 trial]; [discriminate Hrun |].
  cbn [np_array relabel_column] in Hrun.
  destruct (Epochs E r _ _ _ _) as [[X' labels'] | e]; [| discriminate Hrun].
  inversion Hrun; subst. split; [reflexivity |].
  cbn [trace]. repeat rewrite in_app_iff. simpl. tauto.
Qed.

Lemma X6_inference_epochs_the_match_witness :
  exists trial,
    find_sequence [1; 2; 3]%Z (drop_markers (Demo.events_of_trigger 0 [5; 95; 1; 2; 3; 4]%Z))
    = Ok trial /\
    length trial = 3.
Proof.
  destruct (X6_inference_epochs_the_match Demo.env
              (Demo.start (with_sequence (with_mode Demo.fresh predict_mode) [1; 2; 3]%Z))
              (snd (preprocess Demo.env (Demo.recording [5; 95; 1; 2; 3; 4]%Z)
                      (Demo.start (with_sequence (with_mode Demo.fresh predict_mode)
                                     [1; 2; 3]%Z))))
              (Demo.recording [5; 95; 1; 2; 3; 4]%Z) [5; 95; 1; 2; 3; 4]%Z
              (Demo.events_of_trigger 0 [5; 95; 1; 2; 3; 4]%Z)
              [[[2]]; [[3]]; [[4]]]%Z [1; 3; 3]%Z)
    as (trial & Hfind & _ & Hlen & _).
  - reflexivity.
  - reflexivity.
  - reflexivity.
  - exists trial. split; assumption.
Defined.

(** ** The label encoding of [train] *)

Lemma index_of_In (x : Z) (l : list Z) :
  In x l -> nth_error l (index_of x l) = Some x.
Proof.
  induction l as [| a l IH]; simpl; [tauto |].
  intros Hin. destruct (Z.eqb_spec x a) as [-> | Hne]; [reflexivity |].
  simpl. apply IH. destruct Hin; [congruence | assumption].
Qed.

Lemma index_of_sorted (l : list Z) :
  StronglySorted Z.lt l ->
  forall a b, In a l -> In b l ->
              ((a < b)%Z <-> index_of a l < index_of b l).
Proof.
  induction 1 as [| x l Hs IH Hx]; intros a b Ha Hb; [destruct Ha |].
  rewrite Forall_forall in Hx. simpl.
  destruct (Z.eqb_spec a x) as [-> | Hax], (Z.eqb_spec b x) as [-> | Hbx].
  - lia.
  - destruct Hb as [Hb | Hb]; [congruence |]. specialize (Hx b Hb). lia.
  - destruct Ha as [Ha | Ha]; [congruence |]. specialize (Hx a Ha). lia.
  - destruct Ha as [Ha | Ha]; [congruence |]. destruct Hb as [Hb | Hb]; [congruence |].
    rewrite (IH a b Ha Hb). lia.
Qed.

(** X7: the label encoding of [train] numbers the labels by their rank
    among the sorted distinct labels: every code is the position of its
    label there (so the label is recovered from its code), and a smaller
    label gets a smaller code.  For the labels that the relabeling
    produces with the default training class, 1 and the sentinel 3 both
    present, the target label 1 is encoded as 0 and the non-target label
    3 as 1. *)
Theorem X7_label_encode_ranks (labels : list Z) :
  length (label_encode labels) = length labels /\
  (forall i l,
      nth_error labels i = Some l ->
      exists z,
        nth_error (label_encode labels) i = Some z /\
        (0 <= z < Z.of_nat (length (np_unique labels)))%Z /\
        nth_error (np_unique labels) (Z.to_nat z) = Some l) /\
  (forall i j a b za zb,
      nth_error labels i = Some a -> nth_error labels j = Some b ->
      nth_error (label_encode labels) i = Some za ->
      nth_error (label_encode labels) j = Some zb ->
      ((a < b)%Z <-> (za < zb)%Z)) /\
  (In 1%Z labels -> In non_target labels ->
   (forall l, In l labels -> l = 1%Z \/ l = non_target) ->
   label_encode labels = map (fun l => if (l =? 1)%Z then 0%Z else 1%Z) labels).
Proof.
  unfold label_encode. split; [apply length_map |]. split; [| split].
  - intros i l Hl. rewrite nth_error_map, Hl. cbn [option_map].
    assert (Hin : In l (np_unique labels)).
    { apply np_unique_In. eapply nth_error_In; eassumption. }
    pose proof (index_of_In l _ Hin) as Hnth.
    eexists. split; [reflexivity |]. rewrite Nat2Z.id. split; [| assumption].
    assert (index_of l (np_unique labels) < length (np_unique labels))
      by (apply nth_error_Some; congruence).
    lia.
  - intros i j a b za zb Ha Hb Hza Hzb.
    rewrite nth_error_map, Ha in Hza. rewrite nth_error_map, Hb in Hzb.
    cbn [option_map] in *. inversion Hza; inversion Hzb; subst.
    rewrite (index_of_sorted (np_unique labels) (np_unique_sorted labels) a b).
    + lia.
    + apply np_unique_In. eapply nth_error_In; eassumption.
    + apply np_unique_In. eapply nth_error_In; eassumption.
  - intros H1 H3 Hall.
    assert (Hu : np_unique labels = [1; non_target]%Z).
    { apply sorted_same_members.
      - apply np_unique_sorted.
      - repeat constructor.
      - intros x. rewrite np_unique_In. simpl. split.
        + intros Hx. destruct (Hall x Hx); auto.
        + intros [<- | [<- | []]]; assumption. }
    rewrite Hu. apply map_ext_in. intros l Hl.
    destruct (Hall l Hl) as [-> | ->]; reflexivity.
Qed.

Lemma X7_label_encode_ranks_witness :
  (exists z,
      nth_error (label_encode [1; 3; 3; 1; 3]%Z) 1 = Some z /\
      (0 <= z < Z.of_nat (length (np_unique [1; 3; 3; 1; 3]%Z)))%Z /\
      nth_error (np_unique [1; 3; 3; 1; 3]%Z) (Z.to_nat z) = Some 3%Z) /\
  ((1 < 3)%Z <-> (0 < 1)%Z) /\
  label_encode [1; 3; 3; 1; 3]%Z
  = map (fun l => if (l =? 1)%Z then 0%Z else 1%Z) [1; 3; 3; 1; 3]%Z.
Proof.
  destruct (X7_label_encode_ranks [1; 3; 3; 1; 3]%Z) as (_ & Hrank & Hmono & Hbin).
  split; [| split].
  - apply (Hrank 1 3%Z). reflexivity.
  - apply (Hmono 0 1 1%Z 3%Z 0%Z 1%Z); reflexivity.
  - apply Hbin.
    + simpl. tauto.
    + unfold non_target. simpl. tauto.
    + unfold non_target. simpl. intuition.
Defined.

(** ** The bounds of [group_predictions] *)

Lemma Zltb_strict_total : strict_total Z.ltb.
Proof.
  repeat split.
  - intros a. apply Z.ltb_irrefl.
  - intros a b c H1 H2. apply Z.ltb_lt in H1, H2. apply Z.ltb_lt. lia.
  - intros a b H1 H2. apply Z.ltb_ge in H1, H2. lia.
Qed.

Section GroupFacts.

Context (E : Env).

(** With fewer values than codes the loop over the sequence runs out of
    values. *)
Lemma fill_output_short (seq : list Z) (y : list (value E)) (todo : list Z) :
  forall idx output,
    skipn idx seq = todo ->
    idx <= length y ->
    length y < length seq ->
    fill_output E seq y idx todo output = Raise (IndexError "index out of bounds").
Proof.
  induction todo as [| c todo IH]; intros idx output Hskip Hidx Hlen.
  - exfalso. assert (length (skipn idx seq) = 0) by (rewrite Hskip; reflexivity).
    rewrite length_skipn in H. lia.
  - destruct (skipn_cons_inv seq idx c todo Hskip) as [Hc Hrest].
    cbn [fill_output]. rewrite Hc.
    destruct (nth_error y idx) as [v |] eqn:Hv; [| reflexivity].
    apply IH; [assumption | | assumption].
    assert (idx < length y) by (apply nth_error_Some; congruence). lia.
Qed.

Lemma column1_short (rows : list (list (score E))) :
  Exists (fun row => length row < 2) rows ->
  column1 rows = Raise (IndexError "index 1 is out of bounds for axis 1").
Proof.
  induction rows as [| row rows IH]; intros Hex; [inversion Hex |].
  cbn [column1].
  destruct (nth_error row 1) as [v |] eqn:Hv; [| reflexivity].
  assert (Hlen : 1 < length row) by (apply nth_error_Some; congruence).
  inversion Hex as [? ? Hrow | ? ? Hrest]; subst; [lia |].
  rewrite (IH Hrest). reflexivity.
Qed.

End GroupFacts.

(** ** Grouping class labels *)

(** X8: without probabilities, [group_predictions] returns the decision
    under ["class"], the position plus 1 of the first largest predicted
    label, followed by one entry per code of the stimulus sequence, in the
    order of the sequence, holding the label predicted for the epoch at
    the same position; only the model's [predict] is called. *)
Theorem X8_group_predictions_labels
        (E : Env) (w : world E) (X : list (list (score E))) (y : list Z) :
  model_predict E (model_ (self w)) X = Ok y ->
  NoDup (sequence (self w)) ->
  length (sequence (self w)) <= length y ->
  y <> [] ->
  exists best top,
    group_predictions E X false w
    = (Ok (("class"%string, VInt (Z.of_nat best + 1))
             :: combine (map str (sequence (self w))) (map VInt y)),
       mk_world (self w) (trace w ++ [Called_predict X])) /\
    nth_error y best = Some top /\
    (forall x, In x y -> (x <= top)%Z) /\
    (forall k x, k < best -> nth_error y k = Some x -> (x < top)%Z).
Proof.
  intros Hpred Hnd Hlen Hne.
  destruct (argmax_nonempty Z.ltb y Hne) as [best Hbest].
  destruct (argmax_spec Z.ltb Zltb_strict_total y best Hbest) as (top & Hnth & Hmax & Hfirst).
  exists best, top. split; [| split; [assumption | split]].
  - unfold group_predictions, predict_class. unfold_prog.
    cbn. rewrite Hpred. cbn. rewrite Hbest. cbn.
    rewrite fill_output_run.
    + cbn [skipn app map fst].
      rewrite (combine_firstn_l (map str (sequence (self w))) (map VInt y)), length_map.
      reflexivity.
    + reflexivity.
    + rewrite length_map. exact Hlen.
    + cbn [map fst app]. constructor.
      * intros Hin. apply in_map_iff in Hin. destruct Hin as (c & Hc & _).
        exact (str_not_class c Hc).
      * apply NoDup_map_str. assumption.
  - intros x Hx. specialize (Hmax x Hx). apply Z.ltb_ge in Hmax. assumption.
  - intros k x Hk Hx. specialize (Hfirst k x Hk Hx). apply Z.ltb_lt in Hfirst. assumption.
Qed.

Lemma X8_group_predictions_labels_witness :
  exists best top,
    group_predictions Demo.env [[7]; [9]; [4]]%Z false
      (Demo.start (with_model (with_sequence Demo.fresh [1; 2; 3]%Z)
                     [([7], 0); ([9], 1); ([4], 1)]%Z))
    = (Ok (("class"%string, VInt (E := Demo.env) (Z.of_nat best + 1))
             :: combine (map str [1; 2; 3]%Z) (map (VInt (E := Demo.env)) [0; 1; 1]%Z)),
       mk_world (with_model (with_sequence Demo.fresh [1; 2; 3]%Z)
                   [([7], 0); ([9], 1); ([4], 1)]%Z)
         ([] ++ [Called_predict (E := Demo.env) [[7]; [9]; [4]]%Z])) /\
    nth_error [0; 1; 1]%Z best = Some top /\
    (forall x, In x [0; 1; 1]%Z -> (x <= top)%Z) /\
    (forall k x, k < best -> nth_error [0; 1; 1]%Z k = Some x -> (x < top)%Z).
Proof.
  apply (X8_group_predictions_labels Demo.env
           (Demo.start (with_model (with_sequence Demo.fresh [1; 2; 3]%Z)
                          [([7], 0); ([9], 1); ([4], 1)]%Z))
           [[7]; [9]; [4]]%Z [0; 1; 1]%Z).
  - reflexivity.
  - repeat constructor; simpl; intuition discriminate.
  - simpl. lia.
  - discriminate.
Defined.

(** ** Too few or too narrow predictions *)

(** X9: [group_predictions] never returns a mapping shorter than the
    stimulus sequence: when the values to distribute (the normalized
    probabilities, or the predicted labels) are fewer than the codes of the
    sequence it raises an [IndexError], and when there is none at all the
    [ValueError] of [np.argmax]. *)
Theorem X9_group_predictions_too_few
        (E : Env) (w : world E) (X : list (list (score E))) :
  (forall rows p q,
      model_predict_proba E (model_ (self w)) X = Ok rows ->
      column1 rows = Ok p ->
      normalize E p softmax = Ok q ->
      (q <> [] -> length q < length (sequence (self w)) ->
       fst (group_predictions E X true w) = Raise (IndexError "index out of bounds")) /\
      (q = [] ->
       fst (group_predictions E X true w)
       = Raise (ValueError "attempt to get argmax of an empty sequence"))) /\
  (forall y,
      model_predict E (model_ (self w)) X = Ok y ->
      (y <> [] -> length y < length (sequence (self w)) ->
       fst (group_predictions E X false w) = Raise (IndexError "index out of bounds")) /\
      (y = [] ->
       fst (group_predictions E X false w)
       = Raise (ValueError "attempt to get argmax of an empty sequence"))).
Proof.
  split.
  - intros rows p q Hproba Hcol Hnorm.
    unfold group_predictions, predict_probabilities. unfold_prog.
    cbn. rewrite Hproba. cbn. rewrite Hcol. cbn. rewrite Hnorm. cbn. split.
    + intros Hne Hlen.
      destruct (argmax_nonempty (score_ltb E) (map (fun x => np_round E x 4) q))
        as [best Hbest]; [destruct q; [congruence | discriminate] |].
      rewrite Hbest. cbn.
      rewrite fill_output_short; [reflexivity | reflexivity | lia |].
      rewrite !length_map. assumption.
    + intros ->. reflexivity.
  - intros y Hpred.
    unfold group_predictions, predict_class. unfold_prog.
    cbn. rewrite Hpred. cbn. split.
    + intros Hne Hlen.
      destruct (argmax_nonempty Z.ltb y Hne) as [best Hbest].
      rewrite Hbest. cbn.
      rewrite fill_output_short; [reflexivity | reflexivity | lia |].
      rewrite length_map. assumption.
    + intros ->. reflexivity.
Qed.

Lemma X9_group_predictions_too_few_witness :
  fst (group_predictions Demo.env [[7]; [9]]%Z true
         (Demo.start (with_sequence Demo.fresh [1; 2; 3]%Z)))
  = Raise (IndexError "index out of bounds") /\
  fst (group_predictions Demo.env [] false
         (Demo.start (with_sequence Demo.fresh [1; 2; 3]%Z)))
  = Raise (ValueError "attempt to get argmax of an empty sequence").
Proof.
  destruct (X9_group_predictions_too_few Demo.env
              (Demo.start (with_sequence Demo.fresh [1; 2; 3]%Z)) [[7]; [9]]%Z)
    as [Hproba _].
  destruct (X9_group_predictions_too_few Demo.env
              (Demo.start (with_sequence Demo.fresh [1; 2; 3]%Z)) [])
    as [_ Hlabels].
  split.
  - apply (proj1 (Hproba [[3; 7]; [1; 9]]%Z [7; 9]%Z [7; 9]%Z eq_refl eq_refl eq_refl)).
    + discriminate.
    + simpl. lia.
  - apply (proj2 (Hlabels [] eq_refl)). reflexivity.
Defined.

(** X10: when the model reports fewer than two class probabilities for
    some epoch (it knows a single class), the grouped probability
    prediction raises an [IndexError] at column 1, right after the call to
    the model: nothing is normalized and no mapping is built. *)
Theorem X10_group_predictions_single_class
        (E : Env) (w : world E) (X rows : list (list (score E))) :
  model_predict_proba E (model_ (self w)) X = Ok rows ->
  Exists (fun row => length row < 2) rows ->
  group_predictions E X true w
  = (Raise (IndexError "index 1 is out of bounds for axis 1"),
     mk_world (self w) (trace w ++ [Called_predict_proba X])).
Proof.
  intros Hproba Hex.
  unfold group_predictions, predict_probabilities. unfold_prog.
  cbn. rewrite Hproba. cbn. rewrite (column1_short E rows Hex). reflexivity.
Qed.

Lemma X10_group_predictions_single_class_witness :
  fst (group_predictions DemoSingle.env [[7]; [9]; [4]]%Z true
         (mk_world (E := DemoSingle.env)
            (@mk_classifier DemoSingle.env [] predict_mode [1; 2; 3]%Z 0%Z 250%Z None
               (-1)%Z 7%Z 10 1%Z (Some tt) None None) []))
  = Raise (IndexError "index 1 is out of bounds for axis 1").
Proof.
  rewrite (X10_group_predictions_single_class DemoSingle.env _ [[7]; [9]; [4]]%Z
             [[1]; [1]; [1]]%Z).
  - reflexivity.
  - reflexivity.
  - constructor. simpl. lia.
Defined.

(** ** What [evaluate] and [train] leave behind *)

Section TrainState.

Context (E : Env).

Lemma evaluate_self (X : list (list (score E))) (y : list Z) (w : world E) :
  self (snd (evaluate E X y w)) = self w.
Proof.
  unfold evaluate, scaler_transform. unfold_prog. crush_prog; reflexivity.
Qed.

(** Whatever [train] does after its preprocessing pass keeps the mode
    and the sequence; when it returns, the scaler and the prepared
    dataset are stored. *)
Lemma train_after_preprocess (data : list (list (score E))) (sc : scaler E)
      (oversample : bool) (seed : Z) (w : world E) :
  let w1 := snd (preprocess E data w) in
  let w' := snd (train E data sc oversample seed w) in
  mode (self w') = mode (self w1) /\
  sequence (self w') = sequence (self w1) /\
  (fst (train E data sc oversample seed w) = Ok tt ->
   scaler_ (self w') <> None /\ prep_X (self w') <> None /\ prep_Y (self w') <> None).
Proof.
  cbv zeta. remember (train E data sc oversample seed w) as res eqn:Hres.
  unfold train in Hres. unfold Classifier.pbind at 1 in Hres.
  destruct (preprocess E data w) as [[[prep_data labels] | e] w1]; subst res.
  2: { cbn. split; [reflexivity | split; [reflexivity | intros [=]]]. }
  unfold cross_validate, evaluate, scaler_transform. unfold_prog.
  crush_prog; cbn;
    (split; [reflexivity | split; [reflexivity |]]);
    intros Hok; try discriminate Hok; repeat split; discriminate.
Qed.

End TrainState.

(** X11: [evaluate] assigns no attribute of the classifier, on any
    path; on a classifier that has no scaler yet (never trained) it raises
    an [AttributeError] before the model is asked anything. *)
Theorem X11_evaluate_reads_only
        (E : Env) (w : world E) (X : list (list (score E))) (y : list Z) :
  self (snd (evaluate E X y w)) = self w /\
  (scaler_ (self w) = None ->
   evaluate E X y w
   = (Raise (AttributeError "'NoneType' object has no attribute 'transform'"), w)).
Proof.
  split; [apply evaluate_self |].
  intros Hnone. unfold evaluate, scaler_transform. unfold_prog. cbn.
  rewrite Hnone. reflexivity.
Qed.

Lemma X11_evaluate_reads_only_witness :
  evaluate Demo.env [[1]; [2]]%Z [0; 1]%Z (Demo.start Demo.fresh)
  = (Raise (AttributeError "'NoneType' object has no attribute 'transform'"),
     Demo.start Demo.fresh).
Proof.
  apply (proj2 (X11_evaluate_reads_only Demo.env (Demo.start Demo.fresh)
                  [[1]; [2]]%Z [0; 1]%Z)).
  reflexivity.
Defined.

(** X12: [train] never switches the run mode, on any path: after a
    training run the classifier is in the mode it was in.  Called in
    inference mode it leaves the stimulus sequence as it was.  When it
    returns, a scaler and the prepared dataset are stored in the
    classifier. *)
Theorem X12_train_keeps_mode
        (E : Env) (w : world E) (data : list (list (score E))) (sc : scaler E)
        (oversample : bool) (seed : Z) :
  let w' := snd (train E data sc oversample seed w) in
  mode (self w') = mode (self w) /\
  (mode (self w) = predict_mode -> sequence (self w') = sequence (self w)) /\
  (fst (train E data sc oversample seed w) = Ok tt ->
   scaler_ (self w') <> None /\ prep_X (self w') <> None /\ prep_Y (self w') <> None).
Proof.
  cbv zeta.
  destruct (train_after_preprocess E data sc oversample seed w) as (Hmode & Hseq & Hok).
  split; [| split].
  - rewrite Hmode. apply preprocess_mode.
  - intros Hpredict. rewrite Hseq, (preprocess_predict_self E data w Hpredict). reflexivity.
  - exact Hok.
Qed.

Lemma X12_train_keeps_mode_witness :
  let w' := snd (train Demo.env (Demo.recording [1; 2; 3; 1; 2; 3; 1; 2; 3; 1; 2]%Z)
                   tt true 32 (Demo.start Demo.two_fold)) in
  mode (self w') = train_mode /\
  scaler_ (self w') <> None /\ prep_X (self w') <> None /\ prep_Y (self w') <> None.
Proof.
  cbv zeta.
  destruct (X12_train_keeps_mode Demo.env (Demo.start Demo.two_fold)
              (Demo.recording [1; 2; 3; 1; 2; 3; 1; 2; 3; 1; 2]%Z) tt true 32)
    as (Hmode & _ & Hok).
  split; [exact Hmode | apply Hok; reflexivity].
Defined.

(** ** Constructing a classifier *)

(** X13: the constructor refuses a missing model name with its
    [ValueError] and a name that is not one of the four presets with a
    [KeyError], in that order and before the board is asked for its
    sampling rate; when it succeeds the name is one of the presets, the
    sampling rate is the board's, and the new classifier is in training
    mode with an empty stimulus sequence, ten cross-validation splits,
    training class 1 and no scaler. *)
Theorem X13_init_outcome
        (E : Env) (p : Construct.presets E) (get_sampling_rate : Z -> result Z)
        (epoch_start epoch_end : score E) (board_id : Z) (chs : option (list string)) :
  Construct.init E p get_sampling_rate epoch_start epoch_end None board_id chs
  = inl (Construct.ModelIsNone "Model cannot be None") /\
  (forall name,
      ~ In name ["SVM"%string; "LDA"%string; "RF"%string; "MAJ"%string] ->
      Construct.init E p get_sampling_rate epoch_start epoch_end (Some name) board_id chs
      = inl (Construct.KeyError name)) /\
  (forall name c,
      Construct.init E p get_sampling_rate epoch_start epoch_end (Some name) board_id chs
      = inr c ->
      In name ["SVM"%string; "LDA"%string; "RF"%string; "MAJ"%string] /\
      Construct.getitem E (Construct.models E p) name = Some (model_ c) /\
      get_sampling_rate board_id = Ok (fs c) /\
      mode c = train_mode /\ sequence c = [] /\ cv_splits c = 10 /\
      training_class c = 1%Z /\ scaler_ c = None /\
      Classifier.board_id c = board_id /\ Classifier.chs c = chs).
Proof.
  split; [reflexivity |]. split.
  - intros name Hname. unfold Construct.init.
    cbn [Construct.models Construct.getitem].
    destruct (String.eqb_spec name "SVM"); [subst; exfalso; apply Hname; simpl; tauto |].
    destruct (String.eqb_spec name "LDA"); [subst; exfalso; apply Hname; simpl; tauto |].
    destruct (String.eqb_spec name "RF"); [subst; exfalso; apply Hname; simpl; tauto |].
    destruct (String.eqb_spec name "MAJ"); [subst; exfalso; apply Hname; simpl; tauto |].
    reflexivity.
  - intros name c Hinit. unfold Construct.init in Hinit.
    destruct (Construct.getitem E (Construct.models E p) name) as [m |] eqn:Hget;
      [| discriminate Hinit].
    destruct (get_sampling_rate board_id) as [rate | e]; [| discriminate Hinit].
    inversion Hinit; subst c; clear Hinit. cbn.
    repeat split.
    cbn [Construct.models Construct.getitem] in Hget.
    destruct (String.eqb_spec name "SVM"); [subst; simpl; tauto |].
    destruct (String.eqb_spec name "LDA"); [subst; simpl; tauto |].
    destruct (String.eqb_spec name "RF"); [subst; simpl; tauto |].
    destruct (String.eqb_spec name "MAJ"); [subst; simpl; tauto |].
    discriminate Hget.
Qed.

Lemma X13_init_outcome_witness :
  Construct.init Demo.env
    (Construct.Build_presets Demo.env [] [] [] []) (fun _ => Ok 250%Z) (-1)%Z 7%Z
    (Some "svm"%string) 0%Z None
  = inl (Construct.KeyError "svm") /\
  mode Demo.fresh = train_mode.
Proof.
  destruct (X13_init_outcome Demo.env (Construct.Build_presets Demo.env [] [] [] [])
              (fun _ => Ok 250%Z) (-1)%Z 7%Z 0%Z None) as (_ & Hkey & Hok).
  split.
  - apply Hkey. simpl. intuition discriminate.
  - apply (Hok "LDA"%string Demo.fresh). reflexivity.
Defined.

(** ** The OSC stream thread *)

Section OscFacts.

Context (O : Osc.OscEnv).

Lemma send_items_app (c : Osc.client O) (address : string)
      (pre rest : list (string * Osc.values O)) :
  forall tr,
    (forall item, In item pre ->
       Osc.client_send_message O c ("/" ++ fst item)%string
         (Osc.float_values O (snd item)) = Ok tt) ->
    Osc.send_items O c address (pre ++ rest) tr
    = Osc.send_items O c address rest (tr ++ flat_map (fun item =>
                                  [Osc.Logged_sending (fst item) address
                                     (Osc.float_values O (snd item));
                                   Osc.Sent c ("/" ++ fst item)%string
                                     (Osc.float_values O (snd item))]) pre).
Proof.
  induction pre as [| [name v] pre IH]; intros tr Hok.
  - simpl. rewrite app_nil_r. reflexivity.
  - cbn [app Osc.send_items].
    pose proof (Hok (name, v) (or_introl eq_refl)) as Hsend.
    cbn [fst snd] in Hsend. rewrite Hsend.
    rewrite IH by (intros item Hin; apply Hok; now right).
    cbn [flat_map fst snd]. rewrite <- app_assoc. reflexivity.
Qed.

Lemma send_message_run (t : Osc.thread O) (tr : list (Osc.osc_call O))
      (old c : Osc.client O) (address : string) (port : Z)
      (pre rest : list (string * Osc.values O)) :
  Osc.client_ t = Some old ->
  Osc.SimpleUDPClient O address port = Ok c ->
  (forall item, In item pre ->
     Osc.client_send_message O c ("/" ++ fst item)%string
       (Osc.float_values O (snd item)) = Ok tt) ->
  Osc.send_message O address (pre ++ rest) port (t, tr)
  = let (r, tr') :=
      Osc.send_items O c address rest
        (tr ++ Osc.Made_client address port :: flat_map (fun item =>
                                  [Osc.Logged_sending (fst item) address
                                     (Osc.float_values O (snd item));
                                   Osc.Sent c ("/" ++ fst item)%string
                                     (Osc.float_values O (snd item))]) pre) in
    (r, (Osc.with_client O t (Some c), tr')).
Proof.
  intros Hold Hc Hok. unfold Osc.send_message. rewrite Hold, Hc.
  rewrite send_items_app by assumption.
  rewrite <- app_assoc. reflexivity.
Qed.

End OscFacts.

(** X14: a thread without a client drops [send_message] silently: no
    client is made and nothing is sent or logged; this is the case of a
    newly constructed thread and of a thread after [stop].  A [stop] that
    returns leaves the thread not running, without server and without
    client, and a second [stop] changes nothing and closes nothing.  When
    closing the server raises, [stop] ends there: the thread is marked not
    running but keeps its server and its client. *)
Theorem X14_osc_stopped_thread_sends_nothing
        (O : Osc.OscEnv) (w : Osc.osc_world O) (address : string)
        (data : list (string * Osc.values O)) (port : Z) :
  (Osc.client_ (fst w) = None -> Osc.send_message O address data port w = (Ok tt, w)) /\
  (forall lh lp sh sp tr,
      Osc.send_message O address data port (Osc.init O lh lp sh sp, tr)
      = (Ok tt, (Osc.init O lh lp sh sp, tr))) /\
  (forall w1,
      Osc.stop O w = (Ok tt, w1) ->
      Osc.running (fst w1) = false /\
      Osc.server_ (fst w1) = None /\
      Osc.client_ (fst w1) = None /\
      Osc.send_message O address data port w1 = (Ok tt, w1) /\
      Osc.stop O w1 = (Ok tt, w1)) /\
  (forall s e,
      Osc.server_ (fst w) = Some s ->
      Osc.server_close O s = Raise e ->
      exists w1,
        Osc.stop O w = (Raise e, w1) /\
        Osc.running (fst w1) = false /\
        Osc.server_ (fst w1) = Some s /\
        Osc.client_ (fst w1) = Osc.client_ (fst w)).
Proof.
  destruct w as [t tr]. cbn [fst]. split; [| split; [| split]].
  - intros Hnone. unfold Osc.send_message. rewrite Hnone. reflexivity.
  - intros. reflexivity.
  - intros w1 Hstop. unfold Osc.stop in Hstop.
    destruct (Osc.server_ t) as [s |].
    + destruct (Osc.server_close O s) as [[] | e]; [| discriminate Hstop].
      inversion Hstop; subst w1. cbn. repeat split.
    + inversion Hstop; subst w1. cbn. repeat split.
  - intros s e Hs Hclose. unfold Osc.stop. rewrite Hs, Hclose.
    eexists. split; [reflexivity |]. cbn. repeat split.
Qed.

Lemma X14_osc_stopped_thread_sends_nothing_witness :
  let t := Osc.mk_thread (O := Osc.demo) "127.0.0.1" 8000 "127.0.0.1" 9000 true
             (Some tt) (Some ("127.0.0.1"%string, 9000%Z)) in
  let w1 := snd (Osc.stop Osc.demo (t, [])) in
  Osc.send_message Osc.demo "10.0.0.7" [("alpha"%string, Osc.Scalar (O := Osc.demo) 3%Z)]
    9000 w1
  = (Ok tt, w1) /\
  Osc.stop Osc.demo w1 = (Ok tt, w1).
Proof.
  cbv zeta.
  destruct (X14_osc_stopped_thread_sends_nothing Osc.demo
              (Osc.mk_thread (O := Osc.demo) "127.0.0.1" 8000 "127.0.0.1" 9000 true
                 (Some tt) (Some ("127.0.0.1"%string, 9000%Z)), [])
              "10.0.0.7" [("alpha"%string, Osc.Scalar (O := Osc.demo) 3%Z)] 9000)
    as (_ & _ & Hstop & _).
  destruct (Hstop _ eq_refl) as (_ & _ & _ & Hsend & Hagain).
  split; assumption.
Defined.

(** X15: on a thread that has a client, [send_message] first replaces
    that client by a new one for the [address] and [port] of the call (the
    configured send host and port play no part), and then, for every entry
    of the dictionary in insertion order, logs and sends through the new
    client one message at the path ["/" + name] that carries the floats of
    the entry: all of them for an array, the one of a single number. *)
Theorem X15_osc_send_message_sends_each_entry
        (O : Osc.OscEnv) (t : Osc.thread O) (tr : list (Osc.osc_call O))
        (old c : Osc.client O) (address : string) (port : Z)
        (data : list (string * Osc.values O)) :
  Osc.client_ t = Some old ->
  Osc.SimpleUDPClient O address port = Ok c ->
  (forall item, In item data ->
     Osc.client_send_message O c ("/" ++ fst item)%string
       (Osc.float_values O (snd item)) = Ok tt) ->
  Osc.send_message O address data port (t, tr)
  = (Ok tt,
     (Osc.with_client O t (Some c),
      tr ++ Osc.Made_client address port
         :: flat_map (fun item =>
                        [Osc.Logged_sending (fst item) address
                           (Osc.float_values O (snd item));
                         Osc.Sent c ("/" ++ fst item)%string
                           (Osc.float_values O (snd item))]) data)).
Proof.
  intros Hold Hc Hok.
  rewrite <- (app_nil_r data) at 1.
  rewrite (send_message_run O t tr old c address port data [] Hold Hc Hok).
  reflexivity.
Qed.

Lemma X15_osc_send_message_sends_each_entry_witness :
  Osc.send_message Osc.demo "10.0.0.7"
    [("class"%string, Osc.Scalar (O := Osc.demo) 2%Z);
     ("alpha"%string, Osc.NdArray (O := Osc.demo) [3; 4]%Z)] 9001
    (Osc.mk_thread (O := Osc.demo) "127.0.0.1" 8000 "127.0.0.1" 9000 true
       (Some tt) (Some ("127.0.0.1"%string, 9000%Z)), [])
  = (Ok tt,
     (Osc.mk_thread (O := Osc.demo) "127.0.0.1" 8000 "127.0.0.1" 9000 true
        (Some tt) (Some ("10.0.0.7"%string, 9001%Z)),
      [Osc.Made_client (O := Osc.demo) "10.0.0.7" 9001;
       Osc.Logged_sending (O := Osc.demo) "class" "10.0.0.7" [2%Z];
       Osc.Sent (O := Osc.demo) ("10.0.0.7"%string, 9001%Z) "/class" [2%Z];
       Osc.Logged_sending (O := Osc.demo) "alpha" "10.0.0.7" [3; 4]%Z;
       Osc.Sent (O := Osc.demo) ("10.0.0.7"%string, 9001%Z) "/alpha" [3; 4]%Z])).
Proof.
  rewrite (X15_osc_send_message_sends_each_entry Osc.demo _ []
             ("127.0.0.1"%string, 9000%Z) ("10.0.0.7"%string, 9001%Z) "10.0.0.7" 9001
             [("class"%string, Osc.Scalar (O := Osc.demo) 2%Z);
              ("alpha"%string, Osc.NdArray (O := Osc.demo) [3; 4]%Z)]).
  - reflexivity.
  - reflexivity.
  - reflexivity.
  - intros item Hin. reflexivity.
Defined.

(** X16: when sending one entry fails, [send_message] ends with that
    exception: the entries before it have been sent, the failing one has
    been logged and attempted, the entries after it are neither logged
    nor sent, and the thread keeps the new client. *)
Theorem X16_osc_send_message_stops_at_failure
        (O : Osc.OscEnv) (t : Osc.thread O) (tr : list (Osc.osc_call O))
        (old c : Osc.client O) (address : string) (port : Z)
        (pre post : list (string * Osc.values O)) (name : string)
        (v : Osc.values O) (e : exn) :
  Osc.client_ t = Some old ->
  Osc.SimpleUDPClient O address port = Ok c ->
  (forall item, In item pre ->
     Osc.client_send_message O c ("/" ++ fst item)%string
       (Osc.float_values O (snd item)) = Ok tt) ->
  Osc.client_send_message O c ("/" ++ name)%string (Osc.float_values O v) = Raise e ->
  Osc.send_message O address (pre ++ (name, v) :: post) port (t, tr)
  = (Raise e,
     (Osc.with_client O t (Some c),
      tr ++ Osc.Made_client address port
         :: flat_map (fun item =>
                        [Osc.Logged_sending (fst item) address
                           (Osc.float_values O (snd item));
                         Osc.Sent c ("/" ++ fst item)%string
                           (Osc.float_values O (snd item))]) pre
         ++ [Osc.Logged_sending name address (Osc.float_values O v);
             Osc.Sent c ("/" ++ name)%string (Osc.float_values O v)])).
Proof.
  intros Hold Hc Hok Hfail.
  rewrite (send_message_run O t tr old c address port pre ((name, v) :: post) Hold Hc Hok).
  cbn [Osc.send_items]. rewrite Hfail.
  rewrite <- app_assoc. reflexivity.
Qed.

Lemma X16_osc_send_message_stops_at_failure_witness :
  fst (Osc.send_message Osc.demo "10.0.0.7"
         ([] ++ ("class"%string, Osc.Scalar (O := Osc.demo) 2%Z)
             :: [("alpha"%string, Osc.NdArray (O := Osc.demo) [3; 4]%Z)]) 0
         (Osc.mk_thread (O := Osc.demo) "127.0.0.1" 8000 "127.0.0.1" 9000 true
            (Some tt) (Some ("127.0.0.1"%string, 9000%Z)), []))
  = Raise (Upstream "socket").
Proof.
  rewrite (X16_osc_send_message_stops_at_failure Osc.demo _ []
             ("127.0.0.1"%string, 9000%Z) ("10.0.0.7"%string, 0%Z) "10.0.0.7" 0
             [] [("alpha"%string, Osc.NdArray (O := Osc.demo) [3; 4]%Z)]
             "class" (Osc.Scalar (O := Osc.demo) 2%Z) (Upstream "socket")).
  - reflexivity.
  - reflexivity.
  - reflexivity.
  - intros item [].
  - reflexivity.
Defined.

(** ** Short recordings and markers *)

(** A stream shorter than the sequence has no match. *)
Lemma find_sequence_short (sequence : list Z) (events : list event) :
  sequence <> [] ->
  length events < length sequence ->
  find_sequence sequence events = Raise InsufficientMatchError.
Proof.
  intros Hne Hlen.
  destruct (find_sequence_outcome sequence events Hne) as [H | [cand [H Hc]]];
    [assumption |].
  destruct (find_sequence_first_run sequence events cand Hne H) as (pre & post & Hev & _).
  exfalso. rewrite Hev, !length_app in Hlen. lia.
Qed.

(** X17: in inference mode, when the recording has fewer events with a
    code below 90 than the (non-empty) stimulus sequence has codes,
    [predict] returns [None]: the matcher raises the not-enough-events
    error, which is logged, and [Epochs], the scaler and the model are
    never reached. *)
Theorem X17_short_recording_predicts_none
        (E : Env) (w : world E) (data : list (list (score E))) (proba group : bool)
        (r : raw E) (found : list event) :
  mode (self w) = predict_mode ->
  sequence (self w) <> [] ->
  acquire E (self w) data = Ok (r, found) ->
  length (drop_markers found) < length (sequence (self w)) ->
  predict E data proba group w
  = (Ok NoResult,
     mk_world (self w)
       (trace w ++ acquire_calls E (self w)
        ++ [Logged DEBUG (FoundEvents (codes (drop_markers found)));
            Logged DEBUG (UsingSequence (sequence (self w)));
            Logged ERROR (PreprocessError InsufficientMatchError)])).
Proof.
  intros Hmode Hne Hacq Hlen.
  pose proof (preprocess_predict_run E w data r found Hmode Hacq) as Hrun.
  cbv zeta in Hrun.
  rewrite (find_sequence_short _ _ Hne Hlen) in Hrun.
  rewrite (predict_preprocess_raises E w _ data proba group _ Hrun).
  cbn [self trace]. repeat rewrite <- app_assoc. reflexivity.
Qed.

Lemma X17_short_recording_predicts_none_witness :
  fst (predict Demo.env (Demo.recording [1; 95; 96; 2]%Z) true true
         (Demo.start (with_sequence (with_mode Demo.fresh predict_mode) [1; 2; 3]%Z)))
  = Ok NoResult.
Proof.
  rewrite (X17_short_recording_predicts_none Demo.env
             (Demo.start (with_sequence (with_mode Demo.fresh predict_mode) [1; 2; 3]%Z))
             (Demo.recording [1; 95; 96; 2]%Z) true true [1; 95; 96; 2]%Z
             (Demo.events_of_trigger 0 [1; 95; 96; 2]%Z)).
  - reflexivity.
  - reflexivity.
  - discriminate.
  - reflexivity.
  - simpl. lia.
Defined.

(** X18: events with a code of 90 or more are transparent to both modes
    of the preprocessing pass: adding such an event anywhere among the
    found events changes neither the sequence a training pass learns nor
    what an inference pass matches; in particular it does not break a
    match it falls into. *)
Theorem X18_markers_are_transparent
        (l1 l2 : list event) (marker : event) (sequence : list Z) :
  (90 <= code marker)%Z ->
  drop_markers (l1 ++ marker :: l2) = drop_markers (l1 ++ l2) /\
  np_unique (codes (drop_markers (l1 ++ marker :: l2)))
  = np_unique (codes (drop_markers (l1 ++ l2))) /\
  find_sequence sequence (drop_markers (l1 ++ marker :: l2))
  = find_sequence sequence (drop_markers (l1 ++ l2)).
Proof.
  intros Hm.
  assert (Hdrop : drop_markers (l1 ++ marker :: l2) = drop_markers (l1 ++ l2)).
  { unfold drop_markers. rewrite !filter_app. cbn [filter].
    destruct (Z.ltb_spec (code marker) 90); [lia | reflexivity]. }
  rewrite Hdrop. repeat split.
Qed.

Lemma X18_markers_are_transparent_witness :
  find_sequence [1; 2; 3]%Z
    (drop_markers (stream [5; 1; 2]%Z ++ mk_event 3 0 95 :: stream_from 4 [3; 4]%Z))
  = Ok [mk_event 1 0 1; mk_event 2 0 2; mk_event 4 0 3].
Proof.
  rewrite (proj2 (proj2 (X18_markers_are_transparent (stream [5; 1; 2]%Z)
                           (stream_from 4 [3; 4]%Z) (mk_event 3 0 95) [1; 2; 3]%Z
                           ltac:(simpl; lia)))).
  reflexivity.
Defined.

(** ** Switching to inference *)

Lemma predict_calls_self (E : Env)
      (calls : list (list (list (score E)) * bool * bool)) :
  forall w,
    mode (self w) = predict_mode ->
    self (fold_left (fun w c => snd (predict E (fst (fst c)) (snd (fst c)) (snd c) w))
            calls w)
    = self w.
Proof.
  induction calls as [| [[data proba] group] calls IH]; intros w Hmode; [reflexivity |].
  cbn [fold_left fst snd].
  assert (Hself : self (snd (predict E data proba group w)) = self w).
  { rewrite predict_self. apply preprocess_predict_self, Hmode. }
  rewrite IH; [assumption |]. rewrite Hself. assumption.
Qed.

(** X19: [set_inference_mode(True)] changes the mode and nothing else,
    and after it any number of [predict] calls, on any recordings and with
    any flags, leave the classifier exactly as the switch left it: the
    learned stimulus sequence, the model and the scaler are those of the
    last training. *)
Theorem X19_predictions_after_switch_keep_the_classifier
        (E : Env) (w : world E)
        (calls : list (list (list (score E)) * bool * bool)) :
  let w1 := snd (set_inference_mode E true w) in
  fst (set_inference_mode E true w) = Ok tt /\
  self w1 = with_mode (self w) predict_mode /\
  self (fold_left (fun w c => snd (predict E (fst (fst c)) (snd (fst c)) (snd c) w))
          calls w1)
  = with_mode (self w) predict_mode.
Proof.
  cbv zeta.
  assert (Hswitch : self (snd (set_inference_mode E true w)) = with_mode (self w) predict_mode)
    by reflexivity.
  split; [reflexivity |]. split; [assumption |].
  rewrite predict_calls_self; [assumption |]. rewrite Hswitch. reflexivity.
Qed.

(** ** Grouped predictions read column 1 *)

(** X20: with probabilities, [group_predictions] takes column 1 of the
    class probabilities of the epochs, hands it to [normalize] with the
    softmax method, rounds every entry to 4 decimals, and returns a
    dictionary that holds first the decision under ["class"], the position
    of the first largest rounded score plus 1, and then, for each code of
    the stimulus sequence in the order of the sequence, the rounded
    normalized score at the same position under the decimal spelling of
    that code. *)
Theorem X20_group_predictions_softmax_argmax
        (E : Env) (w : world E) (X rows : list (list (score E)))
        (p q : list (score E)) :
  model_predict_proba E (model_ (self w)) X = Ok rows ->
  column1 rows = Ok p ->
  normalize E p softmax = Ok q ->
  let seq := sequence (self w) in
  let y_1 := map (fun x => np_round E x 4) q in
  NoDup seq ->
  length seq <= length y_1 ->
  y_1 <> [] ->
  exists best,
    argmax (score_ltb E) y_1 = Ok best /\
    group_predictions E X true w
    = (Ok (("class"%string, VInt (Z.of_nat best + 1))
             :: combine (map str seq) (map VScore y_1)),
       mk_world (self w)
         (trace w ++ [Called_predict_proba X; Called_normalize p softmax])) /\
    (strict_total (score_ltb E) ->
     exists top,
       nth_error y_1 best = Some top /\
       (forall x, In x y_1 -> score_ltb E top x = false) /\
       (forall k x, k < best -> nth_error y_1 k = Some x -> score_ltb E x top = true)).
Proof.
  intros Hproba Hcol Hnorm seq y_1 Hnd Hlen Hne.
  destruct (argmax_nonempty (score_ltb E) y_1 Hne) as [best Hbest].
  exists best. split; [assumption |]. split.
  - unfold group_predictions, predict_probabilities.
    unfold Classifier.pbind, Classifier.calling, Classifier.emit, Classifier.lift,
      Classifier.get_self.
    cbn. rewrite Hproba. cbn. rewrite Hcol. cbn. rewrite Hnorm. cbn.
    fold y_1. rewrite Hbest. cbn. fold seq.
    rewrite fill_output_run.
    + cbn [skipn app]. rewrite <- app_assoc. cbn [app].
      rewrite (combine_firstn_l (map str seq) (map VScore y_1)), length_map.
      reflexivity.
    + reflexivity.
    + rewrite length_map. exact Hlen.
    + cbn [map fst app]. constructor.
      * intros Hin. apply in_map_iff in Hin. destruct Hin as (c & Hc & _).
        exact (str_not_class c Hc).
      * apply NoDup_map_str. assumption.
  - intros Hord. apply argmax_spec; assumption.
Qed.

Lemma X20_group_predictions_softmax_argmax_witness :
  fst (group_predictions Demo.env [[7]; [9]; [4]]%Z true
         (Demo.start (with_sequence Demo.fresh [1; 2; 3]%Z)))
  = Ok [("class"%string, VInt 2); ("1"%string, VScore (E := Demo.env) 7%Z);
        ("2"%string, VScore (E := Demo.env) 9%Z);
        ("3"%string, VScore (E := Demo.env) 4%Z)] /\
  (forall x, In x [7; 9; 4]%Z -> Z.ltb 9 x = false).
Proof.
  destruct (X20_group_predictions_softmax_argmax Demo.env
              (Demo.start (with_sequence Demo.fresh [1; 2; 3]%Z))
              [[7]; [9]; [4]]%Z [[3; 7]; [1; 9]; [6; 4]]%Z [7; 9; 4]%Z [7; 9; 4]%Z)
    as (best & Hbest & Hrun & Htop).
  - reflexivity.
  - reflexivity.
  - reflexivity.
  - repeat constructor; simpl; intuition discriminate.
  - simpl. lia.
  - discriminate.
  - inversion Hbest; subst. split.
    + rewrite Hrun. reflexivity.
    + destruct Htop as (top & Hnth & Hmax & _).
      * repeat split.
        -- intros a. apply Z.ltb_irrefl.
        -- intros a b c H1 H2. apply Z.ltb_lt in H1, H2. apply Z.ltb_lt. lia.
        -- intros a b H1 H2. apply Z.ltb_ge in H1, H2. lia.
      * inversion Hnth; subst. exact Hmax.
Defined.
